(** * Grid A* planner: occupancy grid (map_objects.py) and search (a_star.py)

    A shallow embedding of the two Python modules.  Python values are
    modelled as follows.

    - Numbers are either [int] (arbitrary precision, [Z]) or [float].  A
      float is represented by the rational it denotes; arithmetic on floats
      is exact rational arithmetic (rounding is not modelled).  What matters
      for the program is the int/float distinction: a list can only be
      indexed by an int.  Magnitudes beyond the range of a double are
      outside the model: where Python raises OverflowError on converting a
      large int to a float, or produces an infinity, the model goes on with
      the exact value.  Statements that name the outcome of a division are
      therefore made for operands that [fits_double] admits.
    - A raised exception is an [Error] result carrying the exception class;
      statements that follow the raising expression are not executed.
    - [None] where the program can produce it is [option]'s [None].
    - A list index follows Python: negative indices count from the end,
      anything else outside the list raises IndexError. *)

From Stdlib Require Import ZArith QArith Qabs Qround Bool String Lia.
From stdpp Require Import base list.

Set Warnings "-register-all".

Local Open Scope Z_scope.

(** ** Exceptions and results *)

Inductive exn : Set :=
  | TypeError
  | IndexError
  | NameError
  | AttributeError
  | ValueError
  | ZeroDivisionError.


Inductive result (A : Type) : Type :=
  | Ok (a : A)
  | Error (e : exn).

Arguments Ok {A} a.
Arguments Error {A} e.

Definition raise {A : Type} (e : exn) : result A := Error e.

#[export] Instance result_ret : MRet result := fun _ a => Ok a.

#[export] Instance result_bind : MBind result := fun _ _ k r =>
  match r with
  | Ok a => k a
  | Error e => Error e
  end.

(** ** Python numbers *)

Inductive num : Set :=
  | PyInt (z : Z)
  | PyFloat (q : Q).

Definition to_Q (a : num) : Q :=
  match a with
  | PyInt z => inject_Z z
  | PyFloat q => q
  end.

Definition float (q : Q) : num := PyFloat (Qred q).

Definition num_add (a b : num) : num :=
  match a, b with
  | PyInt x, PyInt y => PyInt (x + y)
  | _, _ => float (to_Q a + to_Q b)
  end.

Definition num_sub (a b : num) : num :=
  match a, b with
  | PyInt x, PyInt y => PyInt (x - y)
  | _, _ => float (to_Q a - to_Q b)
  end.

Definition num_mul (a b : num) : num :=
  match a, b with
  | PyInt x, PyInt y => PyInt (x * y)
  | _, _ => float (to_Q a * to_Q b)
  end.

Definition num_is_zero (a : num) : bool := Qeq_bool (to_Q a) 0%Q.

(** [a / b]: true division, a float whatever the operands. *)
Definition num_truediv (a b : num) : result num :=
  if num_is_zero b then raise ZeroDivisionError
  else Ok (float (to_Q a / to_Q b)).

(** [a // b]: floor division, an int only when both operands are. *)
Definition num_floordiv (a b : num) : result num :=
  if num_is_zero b then raise ZeroDivisionError
  else match a, b with
       | PyInt x, PyInt y => Ok (PyInt (x / y))
       | _, _ => Ok (float (inject_Z (Qfloor (to_Q a / to_Q b))))
       end.

(** [int(a)]: truncation towards zero. *)
Definition num_int (a : num) : Z :=
  match a with
  | PyInt z => z
  | PyFloat q => Z.quot (Qnum q) (Zpos (Qden q))
  end.

(** [a ** 2] *)
Definition num_sq (a : num) : num := num_mul a a.

Definition num_ltb (a b : num) : bool := negb (Qle_bool (to_Q b) (to_Q a)).
Definition num_leb (a b : num) : bool := Qle_bool (to_Q a) (to_Q b).

(** [max(l)] and [min(l)] of a list of numbers; ValueError on the empty
    list.  The first of several equal extremes is kept. *)
Definition num_max (l : list num) : result num :=
  match l with
  | [] => raise ValueError
  | x :: t => Ok (fold_left (fun m y => if num_ltb m y then y else m) t x)
  end.

Definition num_min (l : list num) : result num :=
  match l with
  | [] => raise ValueError
  | x :: t => Ok (fold_left (fun m y => if num_ltb y m then y else m) t x)
  end.

(** ** Python list indexing *)

(** The position a Python index denotes in a list of length [n]. *)
Definition norm_index (n : nat) (i : Z) : option nat :=
  let len := Z.of_nat n in
  let j := if i <? 0 then i + len else i in
  if (j <? 0) || (len <=? j) then None else Some (Z.to_nat j).

(** [l[i]] for an int [i]. *)
Definition py_index {A : Type} (l : list A) (i : Z) : result A :=
  match norm_index (length l) i with
  | None => raise IndexError
  | Some j =>
      match l !! j with
      | Some x => Ok x
      | None => raise IndexError
      end
  end.

(** [l[i]] for any number [i]: a float is not an index. *)
Definition py_getitem {A : Type} (l : list A) (i : num) : result A :=
  match i with
  | PyInt z => py_index l z
  | PyFloat _ => raise TypeError
  end.

(** [range(a, b)] and [range(n)]. *)
Definition py_range2 (a b : Z) : list Z :=
  map (fun k => a + Z.of_nat k) (seq 0 (Z.to_nat (b - a))).

Definition py_range (n : Z) : list Z := py_range2 0 n.

(** ** map_objects.py: Node *)

Definition pos : Set := (num * num)%type.

Inductive Node : Set := mkNode {
  _coords : Z * Z;
  _is_obstacle : bool;
  parent : option Node;
  _cost : num;
  _heuristic : num;
  _f_cost : num
}.

Definition coords (n : Node) : Z * Z := _coords n.
Definition is_obstacle (n : Node) : bool := _is_obstacle n.
Definition cost (n : Node) : num := _cost n.
Definition heuristic (n : Node) : num := _heuristic n.

(** The [f_cost] property recomputes the sum on every read. *)
Definition f_cost (n : Node) : num := num_add (_cost n) (_heuristic n).

Definition Node_init (c : Z * Z) : Node :=
  let cost0 := PyInt 0 in
  let heur0 := PyInt 0 in
  {| _coords := c; _is_obstacle := false; parent := None;
     _cost := cost0; _heuristic := heur0;
     _f_cost := num_add heur0 cost0 |}.

Definition get_parent (n : Node) : option Node := parent n.

Definition set_obstacle (n : Node) (val : bool) : Node :=
  {| _coords := _coords n; _is_obstacle := val; parent := parent n;
     _cost := _cost n; _heuristic := _heuristic n; _f_cost := _f_cost n |}.

Definition set_heuristic (n : Node) (val : num) : Node :=
  {| _coords := _coords n; _is_obstacle := _is_obstacle n; parent := parent n;
     _cost := _cost n; _heuristic := val;
     _f_cost := num_add (_cost n) val |}.

Definition set_cost (n : Node) (val : num) : Node :=
  {| _coords := _coords n; _is_obstacle := _is_obstacle n; parent := parent n;
     _cost := val; _heuristic := _heuristic n;
     _f_cost := num_add val (_heuristic n) |}.

Definition set_parent (n : Node) (val : option Node) : Node :=
  {| _coords := _coords n; _is_obstacle := _is_obstacle n; parent := val;
     _cost := _cost n; _heuristic := _heuristic n; _f_cost := _f_cost n |}.


(** [Node.__eq__]: two nodes are equal when their coordinates are. *)
Definition Node_eq (self n : Node) : bool :=
  (fst (coords self) =? fst (coords n)) && (snd (coords self) =? snd (coords n)).

(** ** map_objects.py: Obstacle *)

Record Obstacle : Set := mkObstacle {
  vertices : list pos;
  top : num;
  bottom : num;
  left : num;
  right : num
}.

Definition Obstacle_init (vs : list pos) : result Obstacle :=
  t ← num_max (map snd vs);
  b ← num_min (map snd vs);
  l ← num_min (map fst vs);
  r ← num_max (map fst vs);
  mret {| vertices := vs; top := t; bottom := b; left := l; right := r |}.

(** ** map_objects.py: Map *)

Record Map : Set := mkMap {
  origin : pos;
  dim_x : num;
  dim_y : num;
  drone_dim : num;
  obstacles : list Obstacle;
  extents : list pos;
  array : list (list Node)
}.

Definition with_array (m : Map) (a : list (list Node)) : Map :=
  {| origin := origin m; dim_x := dim_x m; dim_y := dim_y m;
     drone_dim := drone_dim m; obstacles := obstacles m;
     extents := extents m; array := a |}.

(** [self.array[y][x].set_obstacle(True)]: the row is fetched, then the
    node, and the node is changed in place. *)
Definition mark_cell (arr : list (list Node)) (y x : Z) : result (list (list Node)) :=
  row ← py_index arr y;
  n ← py_index row x;
  match norm_index (length arr) y, norm_index (length row) x with
  | Some j, Some i => mret (<[j := <[i := set_obstacle n true]> row]> arr)
  | _, _ => raise IndexError
  end.

(** The inner loop, [for x in range(left, right+1)], on row [y]. *)
Fixpoint mark_row (arr : list (list Node)) (y : Z) (xs : list Z)
  : result (list (list Node)) :=
  match xs with
  | [] => mret arr
  | x :: xs' => arr' ← mark_cell arr y x; mark_row arr' y xs'
  end.

(** The outer loop, [for y in range(bottom, top+1)]. *)
Fixpoint mark_rows (arr : list (list Node)) (ys xs : list Z)
  : result (list (list Node)) :=
  match ys with
  | [] => mret arr
  | y :: ys' => arr' ← mark_row arr y xs; mark_rows arr' ys' xs
  end.

(** The four cell indices of an obstacle, in the order the code computes
    them: top, bottom, left, right. *)
Definition obstacle_indices (org : pos) (dd : num) (o : Obstacle)
  : result (Z * Z * Z * Z) :=
  t ← num_truediv (num_add (top o) (snd org)) dd;
  b ← num_truediv (num_add (bottom o) (snd org)) dd;
  l ← num_truediv (num_add (left o) (fst org)) dd;
  r ← num_truediv (num_add (right o) (fst org)) dd;
  mret (num_int t, num_int b, num_int l, num_int r).

Definition mark_range (arr : list (list Node)) (t b l r : Z)
  : result (list (list Node)) :=
  mark_rows arr (py_range2 b (t + 1)) (py_range2 l (r + 1)).

Fixpoint create_obstacles_array (org : pos) (dd : num)
    (arr : list (list Node)) (obs : list Obstacle) : result (list (list Node)) :=
  match obs with
  | [] => mret arr
  | o :: obs' =>
      '(t, b, l, r) ← obstacle_indices org dd o;
      arr' ← mark_range arr t b l r;
      create_obstacles_array org dd arr' obs'
  end.

Definition create_obstacles (self : Map) (obs : list Obstacle) : result Map :=
  arr ← create_obstacles_array (origin self) (drone_dim self) (array self) obs;
  mret (with_array self arr).

(** [[[Node(coords=(x,y)) for x in range(nx)] for y in range(ny)]] *)
Definition fresh_array (nx ny : Z) : list (list Node) :=
  map (fun y => map (fun x => Node_init (x, y)) (py_range nx)) (py_range ny).

Definition Map_init (org : pos) (dx dy : num) (obs : list Obstacle) (dd : num)
  : result Map :=
  let ext := [(PyInt 0, dy); (dx, dy); (PyInt 0, PyInt 0); (dx, PyInt 0)] in
  qy ← num_truediv dy dd;
  qx ← num_truediv dx dd;
  let self := {| origin := org; dim_x := dx; dim_y := dy; drone_dim := dd;
                 obstacles := obs; extents := ext;
                 array := fresh_array (num_int qx) (num_int qy) |} in
  create_obstacles self obs.

(** The filter of [get_neighbors]: drop None and obstacles. *)
Definition free_only (o : option Node) : option Node :=
  match o with
  | Some n => if is_obstacle n then None else Some n
  | None => None
  end.

(** [Map.get_neighbors] *)
Definition get_neighbors (self : Map) (node : Node) : result (list Node) :=
  let x_pos := fst (coords node) in
  let y_pos := snd (coords node) in
  let array_y := Z.of_nat (length (array self)) in
  row0 ← py_index (array self) 0;
  let array_x := Z.of_nat (length row0) in
  top ← (if array_y <=? y_pos + 1 then mret None
         else row ← py_index (array self) (y_pos + 1);
              n ← py_index row x_pos; mret (Some n));
  bottom ← (if y_pos - 1 <? 0 then mret None
            else row ← py_index (array self) (y_pos - 1);
                 n ← py_index row x_pos; mret (Some n));
  left ← (if x_pos - 1 <? 0 then mret None
          else row ← py_index (array self) y_pos;
               n ← py_index row (x_pos - 1); mret (Some n));
  right ← (if array_x <=? x_pos + 1 then mret None
           else row ← py_index (array self) y_pos;
                n ← py_index row (x_pos + 1); mret (Some n));
  let neighbors := [top; bottom; left; right] in
  mret (omap free_only neighbors).

(** [Map.sequence_to_path] *)
Definition half : num := PyFloat (1 # 2).

Definition sequence_to_path (self : Map) (seq : list (num * num)) : list pos :=
  map (fun s =>
         (num_sub (num_add (num_mul (fst s) (drone_dim self))
                           (num_mul half (drone_dim self)))
                  (fst (origin self)),
          num_sub (num_add (num_mul (snd s) (drone_dim self))
                           (num_mul half (drone_dim self)))
                  (snd (origin self)))) seq.

(** [Map.visualize_map], lines 70-76: the scan that collects the columns
    and rows of the occupied cells into [obstacles_x] and [obstacles_y].
    The plotting calls that follow it are outside this model. *)
Fixpoint scan_row (arr : list (list Node)) (y : Z) (xs : list Z)
    (acc : list Z * list Z) : result (list Z * list Z) :=
  match xs with
  | [] => mret acc
  | x :: xs' =>
      row ← py_index arr y;
      n ← py_index row x;
      scan_row arr y xs'
        (if is_obstacle n then (fst acc ++ [x], snd acc ++ [y]) else acc)
  end.

Fixpoint scan_rows (arr : list (list Node)) (ys : list Z)
    (acc : list Z * list Z) : result (list Z * list Z) :=
  match ys with
  | [] => mret acc
  | y :: ys' =>
      row0 ← py_index arr 0;
      acc' ← scan_row arr y (py_range (Z.of_nat (length row0))) acc;
      scan_rows arr ys' acc'
  end.

Definition obstacle_points (self : Map) : result (list Z * list Z) :=
  scan_rows (array self) (py_range (Z.of_nat (length (array self)))) ([], []).

(** ** a_star.py: Astar *)

Record Astar : Set := mkAstar {
  map_ : Map;
  start : pos;
  target : pos;
  nodes_found : list Node;
  nodes_checked : list Node
}.

Definition Astar_init (m : Map) (s t : pos) : Astar :=
  {| map_ := m; start := s; target := t; nodes_found := []; nodes_checked := [] |}.

(** Calling a value that is not callable, such as a tuple or a number. *)
Definition call_value {A B : Type} (v : A) : result B := raise TypeError.

(** [x in None]: None is not a container. *)
Definition in_None {A : Type} (x : A) : result bool := raise TypeError.

(** Reading a bare name that is bound nowhere: not a local of the function,
    not a global of the module (a_star.py binds only the class [Astar]) and
    not a builtin.  NameError is raised and no value is obtained. *)
Definition unbound_name {A : Type} (name : string) : result A := raise NameError.

Section Score.

(** [x ** 0.5], the float square root; its values are not needed to
    decide how the code behaves and it is kept abstract. *)
Variable pow_half : num -> num.

(** Line 26: the distance between two pairs. *)
Definition dist_to_target (current_pos target_pos : pos) : num :=
  pow_half (num_add (num_sq (num_sub (fst current_pos) (fst target_pos)))
                    (num_sq (num_sub (snd current_pos) (snd target_pos)))).

(** Line 27: the sum that makes the score. *)
Definition score_sum (dist parent_heuristic dd : num) : num :=
  num_add (num_add dist parent_heuristic) dd.

(** [Astar.calculate_score]: [coords] and [heuristic] are properties, so
    [child.coords] is a tuple and [parent.heuristic] a number, and the
    code calls both. *)
Definition calculate_score (self : Astar) (parent child : Node) (tgt : pos)
  : result num :=
  _current_pos ← call_value (B := pos) (coords child);
  let _target_pos := target self in
  let _dist_to_target := dist_to_target _current_pos _target_pos in
  ph ← call_value (B := num) (heuristic parent);
  mret (score_sum _dist_to_target ph (drone_dim (map_ self))).

End Score.

(** [Astar.pos_to_node(self, pos, map)] *)
Definition pos_to_node (p : pos) (m : Map) : result Node :=
  node_x ← num_floordiv (fst p) (drone_dim m);
  node_y ← num_floordiv (snd p) (drone_dim m);
  row ← py_getitem (array m) node_x;
  py_getitem row node_y.

(** The positional arguments of a call of [self.pos_to_node].  The method
    has the parameters [(pos, map)] after [self]; a call that passes fewer
    raises TypeError before the body runs. *)
Inductive pos_to_node_args : Set :=
  | Args_pos (p : pos)
  | Args_pos_map (p : pos) (m : Map).

Definition call_pos_to_node (a : pos_to_node_args) : result Node :=
  match a with
  | Args_pos_map p m => pos_to_node p m
  | Args_pos _ => raise TypeError
  end.

(** [list.sort()] compares with [<].  Class Node defines [__sort__] and
    [__eq__] but not [__lt__], so comparing two nodes raises TypeError. *)
Definition Node_lt (a b : Node) : result bool := raise TypeError.

Section Sort.
Context {A : Type} (lt : A -> A -> result bool).

Fixpoint sort_insert (x : A) (l : list A) : result (list A) :=
  match l with
  | [] => mret [x]
  | y :: t =>
      b ← lt y x;
      if (b : bool) then rest ← sort_insert x t; mret (y :: rest)
      else mret (x :: y :: t)
  end.

(** A stable sort; lists of fewer than two elements need no comparison. *)
Fixpoint list_sort (l : list A) : result (list A) :=
  match l with
  | [] => mret []
  | x :: t => sorted ← list_sort t; sort_insert x sorted
  end.
End Sort.

(** [l.pop(0)] *)
Definition pop0 {A : Type} (l : list A) : result (A * list A) :=
  match l with
  | [] => raise IndexError
  | x :: t => mret (x, t)
  end.

(** Lines 64-65: sort the open list, remove its first element. *)
Definition pop_next (found : list Node) : result (Node * list Node) :=
  sorted ← list_sort Node_lt found;
  pop0 sorted.

Definition path_t : Set := list (option Node).

(** Lines 73-77: follow the parent links, appending each node. *)
Fixpoint follow_parents (path : path_t) (node : Node) : result path_t :=
  let path := path ++ [Some node] in
  b ← in_None (parent node);
  if (b : bool) then mret path
  else match parent node with
       | Some p => follow_parents path p
       | None => raise AttributeError
       end.

(** Lines 71-81. *)
Definition reconstruct (node_to_check : Node) : result path_t :=
  let path := [Some node_to_check] in
  match parent node_to_check with
  | None => raise AttributeError
  | Some node => follow_parents path node
  end.

(** One pass of the [while True] loop, lines 58-83.  A pass ends the
    search or raises: line 83 looks up the unbound name [find_nodes], so
    lines 84-91 are not reached and no second pass is made. *)
Definition search_loop (self : Astar) : result (option path_t) :=
  match nodes_found self with
  | [] => mret None
  | _ :: _ =>
      '(node_to_check, rest) ← pop_next (nodes_found self);
      let self := {| map_ := map_ self; start := start self;
                     target := target self; nodes_found := rest;
                     nodes_checked := nodes_checked self ++ [node_to_check] |} in
      tgt ← call_pos_to_node (Args_pos (target self));
      if Node_eq node_to_check tgt then
        path ← reconstruct node_to_check; mret (Some path)
      else
        unbound_name "find_nodes"
  end.

(** [Astar.a_star_search] *)
Definition a_star_search (self : Astar) : result (option path_t) :=
  n ← call_pos_to_node (Args_pos (start self));
  let self := {| map_ := map_ self; start := start self; target := target self;
                 nodes_found := nodes_found self ++ [n];
                 nodes_checked := nodes_checked self |} in
  search_loop self.

(** ** Notions used in the statements, and concrete inputs *)

(** [arr] has [H] rows of [W] nodes and the node at [arr[j][i]] carries the
    coordinates [(i, j)]. *)
Definition grid_ok (W H : nat) (arr : list (list Node)) : Prop :=
  length arr = H /\
  forall j row, arr !! j = Some row ->
    length row = W /\
    forall i n, row !! i = Some n -> coords n = (Z.of_nat i, Z.of_nat j).

(** The number of columns and rows [Map.__init__] allocates. *)
Definition cells_x (m : Map) : Z :=
  match num_truediv (dim_x m) (drone_dim m) with
  | Ok q => num_int q
  | Error _ => 0
  end.

Definition cells_y (m : Map) : Z :=
  match num_truediv (dim_y m) (drone_dim m) with
  | Ok q => num_int q
  | Error _ => 0
  end.

(** The cell the grid code addresses as column [x], row [y]:
    [self.array[y][x]], as in [create_obstacles] and [get_neighbors]. *)
Definition cell_at (m : Map) (x y : Z) : result Node :=
  row ← py_index (array m) y; py_index row x.


Definition int_pos (x y : Z) : pos := (PyInt x, PyInt y).

(** [Map(origin=(0,0), dim_x=w, dim_y=h, obstacles=obs, drone_dim=1)] *)
Definition unit_map (w h : Z) (obs : list Obstacle) : result Map :=
  Map_init (int_pos 0 0) (PyInt w) (PyInt h) obs (PyInt 1).

(** The object that [unit_map w h []] builds. *)
Definition unit_grid (w h : Z) : Map :=
  {| origin := int_pos 0 0; dim_x := PyInt w; dim_y := PyInt h;
     drone_dim := PyInt 1; obstacles := [];
     extents := [(PyInt 0, PyInt h); (PyInt w, PyInt h);
                 (PyInt 0, PyInt 0); (PyInt w, PyInt 0)];
     array := fresh_array w h |}.

(** The rectangle with corners [(x0, y0)] and [(x1, y1)]. *)
Definition rectangle (x0 y0 x1 y1 : Z) : list pos :=
  [int_pos x0 y0; int_pos x1 y0; int_pos x0 y1; int_pos x1 y1].


(** The obstacle with corners (1,0) and (2,1): columns 1..2, rows 0..1. *)
Definition wide_obstacle : Obstacle :=
  {| vertices := rectangle 1 0 2 1;
     top := PyInt 1; bottom := PyInt 0; left := PyInt 1; right := PyInt 2 |}.

(** Whether a number is a float. *)
Definition is_float (a : num) : bool :=
  match a with
  | PyInt _ => false
  | PyFloat _ => true
  end.

(** The stored total cost agrees with the sum of the stored g and h. *)
Definition f_synced (n : Node) : Prop := _f_cost n = f_cost n.

(** Whether the node in column [i] of row [j] is marked; false outside the
    array. *)
Definition occ (arr : list (list Node)) (i j : nat) : bool :=
  match arr !! j with
  | Some row =>
      match row !! i with
      | Some n => is_obstacle n
      | None => false
      end
  | None => false
  end.

(** The ints that Python converts to a float: the conversion rounds to
    the nearest double and raises OverflowError from 2^1024 - 2^970 on. *)
Definition double_limit : Z := 2 ^ 1024 - 2 ^ 970.

(** A number that takes part in float arithmetic without OverflowError:
    its absolute value is below [double_limit], as that of every finite
    double is. *)
Definition fits_double (a : num) : bool :=
  negb (Qle_bool (inject_Z double_limit) (Qabs (to_Q a))).

(** A float footprint, [drone_dim=0.5]. *)
Definition half_cell : num := PyFloat (1 # 2).

(** The node in column [i] of row [j] of an array, if there is one. *)
Definition node_at (arr : list (list Node)) (i j : nat) : option Node :=
  match arr !! j with
  | Some row => row !! i
  | None => None
  end.

(** [n'] is [n], or [n] with the obstacle flag set. *)
Definition same_or_marked (n n' : Node) : Prop :=
  n' = n \/ n' = set_obstacle n true.

(** [arr'] has the shape of [arr] and its nodes are those of [arr], some
    of them marked. *)
Definition marked_from (arr arr' : list (list Node)) : Prop :=
  Forall2 (Forall2 same_or_marked) arr arr'.

(** A map whose footprint is negative: [Map(origin=(0,0), dim_x=2, dim_y=2,
    drone_dim=-1)] allocates no cell. *)
Definition negative_map : Map :=
  {| origin := int_pos 0 0; dim_x := PyInt 2; dim_y := PyInt 2;
     drone_dim := PyInt (-1); obstacles := [];
     extents := [(PyInt 0, PyInt 2); (PyInt 2, PyInt 2);
                 (PyInt 0, PyInt 0); (PyInt 2, PyInt 0)];
     array := [] |}.



(** * Properties *)

(** ** Results and indexing *)

Lemma bind_Ok {A B : Type} (r : result A) (k : A -> result B) (b : B) :
  (r ≫= k) = Ok b -> exists a, r = Ok a /\ k a = Ok b.
Proof. destruct r as [a|e]; simpl; [eauto | discriminate]. Qed.

Lemma bind_Error {A B : Type} (r : result A) (k : A -> result B) (e : exn) :
  (r ≫= k) = Error e -> r = Error e \/ exists a, r = Ok a /\ k a = Error e.
Proof. destruct r as [a|e']; simpl; [eauto | intros [= ->]; auto]. Qed.

Lemma norm_index_Some (n : nat) (i : Z) (j : nat) :
  norm_index n i = Some j ->
  (j < n)%nat /\ - Z.of_nat n <= i < Z.of_nat n /\
  Z.of_nat j = (if i <? 0 then i + Z.of_nat n else i).
Proof.
  unfold norm_index.
  destruct (i <? 0) eqn:Hi;
    destruct (_ || _) eqn:Hb; try discriminate;
    intros [= <-]; apply orb_false_iff in Hb as [H1 H2]; lia.
Qed.

Lemma norm_index_None (n : nat) (i : Z) :
  norm_index n i = None -> i < - Z.of_nat n \/ Z.of_nat n <= i.
Proof.
  unfold norm_index.
  destruct (i <? 0) eqn:Hi;
    destruct (_ || _) eqn:Hb; try discriminate;
    intros _; apply orb_true_iff in Hb as [H|H]; lia.
Qed.

Lemma norm_index_in_range (n : nat) (i : Z) :
  0 <= i < Z.of_nat n -> norm_index n i = Some (Z.to_nat i).
Proof.
  intros Hi. unfold norm_index.
  destruct (i <? 0) eqn:E; [lia|].
  destruct (_ || _) eqn:Hb; [|reflexivity].
  apply orb_true_iff in Hb as [H|H]; lia.
Qed.

Lemma py_index_Ok {A : Type} (l : list A) (i : Z) (x : A) :
  py_index l i = Ok x <->
  exists j, norm_index (length l) i = Some j /\ l !! j = Some x.
Proof.
  unfold py_index. split.
  - destruct (norm_index _ i) as [j|] eqn:Hn; [|discriminate].
    destruct (l !! j) as [y|] eqn:Hl; [|discriminate].
    intros [= ->]. eauto.
  - intros (j & -> & ->). reflexivity.
Qed.

Lemma py_index_Error {A : Type} (l : list A) (i : Z) (e : exn) :
  py_index l i = Error e -> e = IndexError.
Proof.
  unfold py_index, raise.
  destruct (norm_index _ i); [destruct (l !! _)|]; congruence.
Qed.

Lemma py_index_out_of_range {A : Type} (l : list A) (i : Z) :
  i < - Z.of_nat (length l) \/ Z.of_nat (length l) <= i ->
  py_index l i = Error IndexError.
Proof.
  intros Hi. unfold py_index.
  destruct (norm_index _ i) as [j|] eqn:Hn; [|reflexivity].
  apply norm_index_Some in Hn. lia.
Qed.

Lemma py_index_in_range {A : Type} (l : list A) (i : Z) :
  0 <= i < Z.of_nat (length l) -> py_index l i = (match l !! Z.to_nat i with
                                                 | Some x => Ok x
                                                 | None => Error IndexError
                                                 end).
Proof. intros Hi. unfold py_index. rewrite norm_index_in_range; auto. Qed.

Lemma elem_of_py_range2 (a b x : Z) :
  x ∈ py_range2 a b <-> a <= x < b.
Proof.
  unfold py_range2. rewrite list_elem_of_fmap. split.
  - intros (k & -> & Hk). apply elem_of_seq in Hk. lia.
  - intros Hx. exists (Z.to_nat (x - a)). split; [lia|].
    apply elem_of_seq. lia.
Qed.

Lemma py_range_lookup (n : Z) (k : nat) (x : Z) :
  py_range n !! k = Some x -> x = Z.of_nat k.
Proof.
  unfold py_range, py_range2. rewrite list_lookup_fmap.
  destruct (seq 0 _ !! k) as [v|] eqn:Hs; [|discriminate].
  apply lookup_seq in Hs as [-> _]. simpl. intros [= <-]. lia.
Qed.

Lemma py_range_length (n : Z) : length (py_range n) = Z.to_nat n.
Proof.
  unfold py_range, py_range2. rewrite length_map, length_seq. f_equal. lia.
Qed.

(** ** The grid invariant: shape and row-first coordinates *)

Lemma fresh_array_grid_ok (nx ny : Z) :
  grid_ok (Z.to_nat nx) (Z.to_nat ny) (fresh_array nx ny).
Proof.
  unfold grid_ok, fresh_array. split.
  - rewrite length_map. apply py_range_length.
  - intros j row. rewrite list_lookup_fmap.
    destruct (py_range ny !! j) as [y|] eqn:Hy; [|discriminate].
    simpl. intros [= <-]. apply py_range_lookup in Hy as ->. split.
    + rewrite length_map. apply py_range_length.
    + intros i n. rewrite list_lookup_fmap.
      destruct (py_range nx !! i) as [x|] eqn:Hx; [|discriminate].
      simpl. intros [= <-]. apply py_range_lookup in Hx as ->. reflexivity.
Qed.

Lemma mark_cell_Ok (W H : nat) (arr arr' : list (list Node)) (y x : Z) :
  grid_ok W H arr -> mark_cell arr y x = Ok arr' ->
  grid_ok W H arr' /\
  - Z.of_nat H <= y < Z.of_nat H /\ - Z.of_nat W <= x < Z.of_nat W.
Proof.
  intros [Hlen Hrows] Hm. unfold mark_cell in Hm.
  apply bind_Ok in Hm as (row & Hrow & Hm).
  apply bind_Ok in Hm as (n & Hn & Hm).
  apply py_index_Ok in Hrow as (j & Hj & Hrow).
  apply py_index_Ok in Hn as (i & Hi & Hn).
  rewrite Hj, Hi in Hm. injection Hm as <-.
  destruct (Hrows j row Hrow) as [Hw Hc].
  apply norm_index_Some in Hj as Hj'. apply norm_index_Some in Hi as Hi'.
  split; [|lia]. split.
  - rewrite length_insert. exact Hlen.
  - intros j' row' Hl.
    destruct (decide (j = j')) as [<-|Hne].
    + rewrite list_lookup_insert_eq in Hl by lia. injection Hl as <-.
      split; [rewrite length_insert; exact Hw|].
      intros i' n' Hl'.
      destruct (decide (i = i')) as [<-|Hne'].
      * rewrite list_lookup_insert_eq in Hl' by lia. injection Hl' as <-.
        apply (Hc i n Hn).
      * rewrite list_lookup_insert_ne in Hl' by exact Hne'. apply (Hc i' n' Hl').
    + rewrite list_lookup_insert_ne in Hl by exact Hne. apply (Hrows j' row' Hl).
Qed.

Lemma mark_cell_Error (arr : list (list Node)) (y x : Z) (e : exn) :
  mark_cell arr y x = Error e -> e = IndexError.
Proof.
  unfold mark_cell. intros Hm.
  apply bind_Error in Hm as [Hm|(row & Hrow & Hm)];
    [exact (py_index_Error _ _ _ Hm)|].
  apply bind_Error in Hm as [Hm|(n & Hn & Hm)];
    [exact (py_index_Error _ _ _ Hm)|].
  destruct (norm_index _ y); [destruct (norm_index _ x)|];
    cbv [mret result_ret raise] in Hm; congruence.
Qed.

Lemma mark_row_Ok (W H : nat) (xs : list Z) :
  forall (arr arr' : list (list Node)) (y : Z),
  grid_ok W H arr -> mark_row arr y xs = Ok arr' ->
  grid_ok W H arr' /\
  forall x, x ∈ xs ->
    - Z.of_nat H <= y < Z.of_nat H /\ - Z.of_nat W <= x < Z.of_nat W.
Proof.
  induction xs as [|x xs IH]; intros arr arr' y Hg Hm; simpl in Hm.
  - injection Hm as <-. split; [exact Hg|]. intros x Hx. inversion Hx.
  - apply bind_Ok in Hm as (arr1 & Hc & Hm).
    destruct (mark_cell_Ok _ _ _ _ _ _ Hg Hc) as (Hg1 & Hy & Hx).
    destruct (IH _ _ _ Hg1 Hm) as (Hg' & Hall).
    split; [exact Hg'|].
    intros x' Hin. apply elem_of_cons in Hin as [->|Hin]; auto.
Qed.

Lemma mark_row_Error (xs : list Z) :
  forall (arr : list (list Node)) (y : Z) (e : exn),
  mark_row arr y xs = Error e -> e = IndexError.
Proof.
  induction xs as [|x xs IH]; intros arr y e Hm; simpl in Hm.
  - discriminate.
  - apply bind_Error in Hm as [Hm|(arr1 & _ & Hm)].
    + exact (mark_cell_Error _ _ _ _ Hm).
    + exact (IH _ _ _ Hm).
Qed.

Lemma mark_rows_Ok (W H : nat) (xs ys : list Z) :
  forall (arr arr' : list (list Node)),
  grid_ok W H arr -> mark_rows arr ys xs = Ok arr' ->
  grid_ok W H arr' /\
  forall y x, y ∈ ys -> x ∈ xs ->
    - Z.of_nat H <= y < Z.of_nat H /\ - Z.of_nat W <= x < Z.of_nat W.
Proof.
  induction ys as [|y ys IH]; intros arr arr' Hg Hm; simpl in Hm.
  - injection Hm as <-. split; [exact Hg|]. intros y x Hy. inversion Hy.
  - apply bind_Ok in Hm as (arr1 & Hr & Hm).
    destruct (mark_row_Ok _ _ _ _ _ _ Hg Hr) as (Hg1 & Hrow).
    destruct (IH _ _ Hg1 Hm) as (Hg' & Hall).
    split; [exact Hg'|].
    intros y' x' Hin Hx. apply elem_of_cons in Hin as [->|Hin]; auto.
Qed.

Lemma mark_rows_Error (xs ys : list Z) :
  forall (arr : list (list Node)) (e : exn),
  mark_rows arr ys xs = Error e -> e = IndexError.
Proof.
  induction ys as [|y ys IH]; intros arr e Hm; simpl in Hm.
  - discriminate.
  - apply bind_Error in Hm as [Hm|(arr1 & _ & Hm)].
    + exact (mark_row_Error _ _ _ _ Hm).
    + exact (IH _ _ Hm).
Qed.

(** Marking a range that is not empty and leaves the list on the high side
    raises IndexError: nothing is clipped. *)
Lemma mark_range_overflow (W H : nat) (arr : list (list Node)) (t b l r : Z) :
  grid_ok W H arr -> b <= t -> l <= r ->
  Z.of_nat H <= t \/ Z.of_nat W <= r ->
  mark_range arr t b l r = Error IndexError.
Proof.
  intros Hg Hbt Hlr Hout. unfold mark_range.
  destruct (mark_rows arr _ _) as [arr'|e] eqn:Hm.
  - exfalso.
    destruct (mark_rows_Ok _ _ _ _ _ _ Hg Hm) as (_ & Hall).
    assert (Ht : t ∈ py_range2 b (t + 1)) by (apply elem_of_py_range2; lia).
    assert (Hr : r ∈ py_range2 l (r + 1)) by (apply elem_of_py_range2; lia).
    specialize (Hall t r Ht Hr). lia.
  - f_equal. exact (mark_rows_Error _ _ _ _ Hm).
Qed.

Lemma mark_range_Ok (W H : nat) (arr arr' : list (list Node)) (t b l r : Z) :
  grid_ok W H arr -> mark_range arr t b l r = Ok arr' -> grid_ok W H arr'.
Proof.
  intros Hg Hm. exact (proj1 (mark_rows_Ok _ _ _ _ _ _ Hg Hm)).
Qed.

Lemma create_obstacles_array_Ok (W H : nat) (org : pos) (dd : num)
    (obs : list Obstacle) :
  forall (arr arr' : list (list Node)),
  grid_ok W H arr -> create_obstacles_array org dd arr obs = Ok arr' ->
  grid_ok W H arr'.
Proof.
  induction obs as [|o obs IH]; intros arr arr' Hg Hc; simpl in Hc.
  - injection Hc as <-. exact Hg.
  - apply bind_Ok in Hc as ([[[t b] l] r] & _ & Hc).
    apply bind_Ok in Hc as (arr1 & Hm & Hc).
    exact (IH _ _ (mark_range_Ok _ _ _ _ _ _ _ _ Hg Hm) Hc).
Qed.

(** Obstacle marking keeps the shape of the array and the coordinates of
    its nodes. *)
Lemma create_obstacles_grid_ok (W H : nat) (self m : Map) (obs : list Obstacle) :
  grid_ok W H (array self) -> create_obstacles self obs = Ok m ->
  grid_ok W H (array m).
Proof.
  intros Hg Hc. unfold create_obstacles in Hc.
  apply bind_Ok in Hc as (arr & Ha & Hc). injection Hc as <-.
  exact (create_obstacles_array_Ok _ _ _ _ _ _ _ Hg Ha).
Qed.

(** A map that [Map.__init__] returns has [cells_y] rows of [cells_x]
    nodes, and the node at [array[y][x]] has the coordinates [(x, y)]. *)
Lemma Map_init_grid_ok (org : pos) (dx dy dd : num) (obs : list Obstacle) (m : Map) :
  Map_init org dx dy obs dd = Ok m ->
  grid_ok (Z.to_nat (cells_x m)) (Z.to_nat (cells_y m)) (array m).
Proof.
  unfold Map_init. intros Hi.
  apply bind_Ok in Hi as (qy & Hqy & Hi).
  apply bind_Ok in Hi as (qx & Hqx & Hi).
  assert (Hm := Hi). unfold create_obstacles in Hm.
  apply bind_Ok in Hm as (arr & _ & Hm). injection Hm as <-.
  unfold cells_x, cells_y. cbn [with_array dim_x dim_y drone_dim].
  rewrite Hqx, Hqy.
  eapply create_obstacles_grid_ok; [|exact Hi]. cbn [array].
  apply fresh_array_grid_ok.
Qed.

Lemma Map_init_getitem (org : pos) (dx dy dd : num) (obs : list Obstacle)
    (m : Map) (x y : Z) :
  Map_init org dx dy obs dd = Ok m ->
  0 <= x < cells_x m -> 0 <= y < cells_y m ->
  exists n, (row ← py_index (array m) y; py_index row x) = Ok n /\
            coords n = (x, y).
Proof.
  intros Hi Hx Hy. destruct (Map_init_grid_ok _ _ _ _ _ _ Hi) as [Hlen Hrows].
  destruct (lookup_lt_is_Some_2 (array m) (Z.to_nat y)) as [row Hrow]; [lia|].
  destruct (Hrows _ _ Hrow) as [Hw Hc].
  destruct (lookup_lt_is_Some_2 row (Z.to_nat x)) as [n Hn]; [lia|].
  exists n. split.
  - rewrite py_index_in_range by lia. rewrite Hrow. simpl.
    rewrite py_index_in_range by lia. rewrite Hn. reflexivity.
  - rewrite (Hc _ _ Hn). f_equal; lia.
Qed.

Lemma Map_init_cell_at (org : pos) (dx dy dd : num) (obs : list Obstacle)
    (m : Map) (x y : Z) :
  Map_init org dx dy obs dd = Ok m ->
  0 <= x < cells_x m -> 0 <= y < cells_y m ->
  exists n, cell_at m x y = Ok n /\ coords n = (x, y).
Proof. apply Map_init_getitem. Qed.

(** ** Neighbours *)

Lemma omap_free_only (l : list (option Node)) :
  Forall (fun n => is_obstacle n = false) (omap free_only l).
Proof.
  induction l as [|o l IH]; simpl; [constructor|].
  destruct o as [n|]; simpl; [|exact IH].
  destruct (is_obstacle n) eqn:Hn; simpl; [exact IH|].
  constructor; assumption.
Qed.

(** Every node [get_neighbors] returns is unoccupied. *)
Lemma get_neighbors_unoccupied (m : Map) (node : Node) (l : list Node) :
  get_neighbors m node = Ok l -> Forall (fun n => is_obstacle n = false) l.
Proof.
  unfold get_neighbors. intros Hg.
  apply bind_Ok in Hg as (row0 & _ & Hg).
  apply bind_Ok in Hg as (t & _ & Hg).
  apply bind_Ok in Hg as (b & _ & Hg).
  apply bind_Ok in Hg as (lf & _ & Hg).
  apply bind_Ok in Hg as (r & _ & Hg).
  injection Hg as <-. apply (omap_free_only [t; b; lf; r]).
Qed.

Lemma grid_ok_py_index (W H : nat) (arr : list (list Node)) (row : list Node)
    (n : Node) (x y : Z) :
  grid_ok W H arr -> 0 <= x -> 0 <= y ->
  py_index arr y = Ok row -> py_index row x = Ok n -> coords n = (x, y).
Proof.
  intros [_ Hrows] Hx Hy Hr Hn.
  apply py_index_Ok in Hr as (j & Hj & Hr).
  apply py_index_Ok in Hn as (i & Hi & Hn).
  apply norm_index_Some in Hj as (_ & _ & Hj).
  apply norm_index_Some in Hi as (_ & _ & Hi).
  destruct (y <? 0) eqn:Ey; [lia|]. destruct (x <? 0) eqn:Ex; [lia|].
  destruct (Hrows _ _ Hr) as [_ Hc]. rewrite (Hc _ _ Hn). congruence.
Qed.

Lemma guarded_cell (W H : nat) (arr : list (list Node)) (skip : bool)
    (x y : Z) (o : option Node) :
  grid_ok W H arr ->
  (skip = false -> 0 <= x /\ 0 <= y) ->
  (if skip then mret None
   else row ← py_index arr y; n ← py_index row x; mret (Some n)) = Ok o ->
  forall n, o = Some n -> coords n = (x, y).
Proof.
  intros Hg Hpos Hr n ->. destruct skip; [discriminate|].
  destruct (Hpos eq_refl) as [Hx Hy].
  apply bind_Ok in Hr as (row & Hrow & Hr).
  apply bind_Ok in Hr as (k & Hk & Hr). injection Hr as ->.
  exact (grid_ok_py_index _ _ _ _ _ _ _ Hg Hx Hy Hrow Hk).
Qed.

(** On a well-formed grid the neighbours of the node (x, y) are read at
    [array[y+1][x]], [array[y-1][x]], [array[y][x-1]] and [array[y][x+1]]:
    each node returned has one of the four adjacent coordinates. *)
Lemma get_neighbors_adjacent (W H : nat) (m : Map) (node : Node) (l : list Node) :
  grid_ok W H (array m) ->
  0 <= fst (coords node) -> 0 <= snd (coords node) ->
  get_neighbors m node = Ok l ->
  forall n, n ∈ l ->
    coords n ∈ [(fst (coords node), snd (coords node) + 1);
                (fst (coords node), snd (coords node) - 1);
                (fst (coords node) - 1, snd (coords node));
                (fst (coords node) + 1, snd (coords node))].
Proof.
  intros Hg Hx Hy Hn. unfold get_neighbors in Hn.
  apply bind_Ok in Hn as (row0 & _ & Hn).
  apply bind_Ok in Hn as (t & Ht & Hn).
  apply bind_Ok in Hn as (b & Hb & Hn).
  apply bind_Ok in Hn as (lf & Hl & Hn).
  apply bind_Ok in Hn as (r & Hr & Hn).
  injection Hn as <-. intros n Hin.
  change (n ∈ omap free_only [t; b; lf; r]) in Hin.
  apply list_elem_of_omap in Hin as (o & Ho & Hfree).
  assert (Hsome : o = Some n).
  { destruct o as [k|]; simpl in Hfree; [|discriminate].
    destruct (is_obstacle k); congruence. }
  set (x := fst (coords node)) in *. set (y := snd (coords node)) in *.
  assert (Ht' := fun pf => guarded_cell _ _ _ _ x (y + 1) _ Hg pf Ht).
  assert (Hb' := fun pf => guarded_cell _ _ _ _ x (y - 1) _ Hg pf Hb).
  assert (Hl' := fun pf => guarded_cell _ _ _ _ (x - 1) y _ Hg pf Hl).
  assert (Hr' := fun pf => guarded_cell _ _ _ _ (x + 1) y _ Hg pf Hr).
  specialize (Ht' ltac:(intros _; split; lia)).
  specialize (Hb' ltac:(intros E; apply Z.ltb_ge in E; split; lia)).
  specialize (Hl' ltac:(intros E; apply Z.ltb_ge in E; split; lia)).
  specialize (Hr' ltac:(intros _; split; lia)).
  repeat (apply elem_of_cons in Ho as [->|Ho]);
    [rewrite (Ht' _ Hsome) | rewrite (Hb' _ Hsome)
    | rewrite (Hl' _ Hsome) | rewrite (Hr' _ Hsome) | inversion Ho].
  - apply list_elem_of_here.
  - do 1 apply list_elem_of_further. apply list_elem_of_here.
  - do 2 apply list_elem_of_further. apply list_elem_of_here.
  - do 3 apply list_elem_of_further. apply list_elem_of_here.
Qed.

(** ** The search never gets past its first call *)

Lemma a_star_search_raises (self : Astar) :
  a_star_search self = Error TypeError.
Proof. reflexivity. Qed.

Lemma sort_insert_Node_lt (x : Node) (l : list Node) :
  sort_insert Node_lt x l = match l with
                            | [] => Ok [x]
                            | _ :: _ => Error TypeError
                            end.
Proof. destruct l; reflexivity. Qed.

Lemma list_sort_Node_lt (l : list Node) :
  list_sort Node_lt l = match l with
                        | [] | [_] => Ok l
                        | _ :: _ :: _ => Error TypeError
                        end.
Proof.
  induction l as [|x l IH]; [reflexivity|].
  simpl. rewrite IH. destruct l as [|y [|z l]]; reflexivity.
Qed.

Lemma pop_next_single (n : Node) : pop_next [n] = Ok (n, []).
Proof. reflexivity. Qed.

Lemma pop_next_several (a b : Node) (l : list Node) :
  pop_next (a :: b :: l) = Error TypeError.
Proof. unfold pop_next. rewrite list_sort_Node_lt. reflexivity. Qed.

(** A pass over a non-empty open list raises TypeError: on the sort when
    the list has two nodes or more, else on line 70. *)
Lemma search_loop_nonempty (self : Astar) :
  nodes_found self <> [] -> search_loop self = Error TypeError.
Proof.
  unfold search_loop. destruct (nodes_found self) as [|a [|b l]]; intros Hne.
  - congruence.
  - reflexivity.
  - rewrite pop_next_several. reflexivity.
Qed.

(** The outcome None arises from the empty open list, and only from it. *)
Lemma search_loop_None_iff (self : Astar) :
  search_loop self = Ok None <-> nodes_found self = [].
Proof.
  split.
  - intros Hs. destruct (nodes_found self) as [|a l] eqn:Hf; [reflexivity|].
    rewrite search_loop_nonempty in Hs by congruence. discriminate.
  - intros Hf. unfold search_loop. rewrite Hf. reflexivity.
Qed.

Lemma search_loop_no_path (self : Astar) (p : path_t) :
  search_loop self <> Ok (Some p).
Proof.
  destruct (nodes_found self) as [|a l] eqn:Hf.
  - unfold search_loop. rewrite Hf. discriminate.
  - rewrite search_loop_nonempty by congruence. discriminate.
Qed.

Lemma a_star_search_no_path (self : Astar) (p : path_t) :
  a_star_search self <> Ok (Some p).
Proof. rewrite a_star_search_raises. discriminate. Qed.

Lemma reconstruct_raises (n : Node) :
  exists e, reconstruct n = Error e.
Proof.
  unfold reconstruct. destruct (parent n) as [p|]; [|eexists; reflexivity].
  destruct p; eexists; reflexivity.
Qed.

Lemma calculate_score_raises (pow_half : num -> num) (self : Astar)
    (p c : Node) (tgt : pos) :
  calculate_score pow_half self p c tgt = Error TypeError.
Proof. reflexivity. Qed.

(** ** Lookups do not depend on occupancy *)




(** ** Concrete grids *)

Example unit_map_2_2 : unit_map 2 2 [] = Ok (unit_grid 2 2).
Proof. reflexivity. Qed.

Example unit_map_coords :
  (m ← unit_map 3 2 []; mret (map (map coords) (array m)))
  = Ok [[(0, 0); (1, 0); (2, 0)]; [(0, 1); (1, 1); (2, 1)]].
Proof. reflexivity. Qed.

(** An index below zero is not clipped: the obstacle over columns -1..0 of
    row 0 marks the cells (0,0) and, counted from the far edge, (1,0). *)
Example negative_index_wraps :
  (o ← Obstacle_init (rectangle (-1) 0 0 0);
   m ← unit_map 2 2 [o]; mret (map (map is_obstacle) (array m)))
  = Ok [[true; true]; [false; false]].
Proof. reflexivity. Qed.

(** ** The claims *)

(** C2 (completeness), at a grid where a route exists.  On the 2 x 1 grid
    without obstacles the cells (0,0) and (1,0) are free and adjacent:
    [get_neighbors] of the first returns the second.  The search from
    (0,0) to (1,0) does not return a path: line 56 calls
    [self.pos_to_node(self.start)] without the [map] argument and
    TypeError is raised. *)
Theorem search_raises_on_connected_grid :
  (m ← unit_map 2 1 [];
   s ← cell_at m 0 0;
   nb ← get_neighbors m s;
   mret (is_obstacle s, map coords nb, map is_obstacle nb))
  = Ok (false, [(1, 0)], [false]) /\
  (m ← unit_map 2 1 [];
   a_star_search (Astar_init m (int_pos 0 0) (int_pos 1 0)))
  = Error TypeError.
Proof. split; reflexivity. Qed.

(** C3 (round trip), at the in-bounds cell (1,0) of the 2 x 2 grid with
    origin (0,0) and footprint 1.  [sequence_to_path] gives the centre
    (1.5, 0.5); [pos_to_node] floor-divides to the floats 1.0 and 0.0 and
    indexes the array with them, which raises TypeError: the cell does not
    come back. *)
Theorem round_trip_raises :
  (m ← unit_map 2 2 []; mret (sequence_to_path m [int_pos 1 0]))
  = Ok [(PyFloat (3 # 2), PyFloat (1 # 2))] /\
  (m ← unit_map 2 2 [];
   pos_to_node (PyFloat (3 # 2), PyFloat (1 # 2)) m)
  = Error TypeError.
Proof. split; reflexivity. Qed.

(** C4 (world to cell).  On the 3 x 2 grid with origin (0,0) and footprint
    1 the position (2,0) has the in-bounds index (2,0), yet [pos_to_node]
    reads [array[2][0]] and raises IndexError: the array has two rows.  On
    the 2 x 2 grid the position (-1,0) has an index outside the grid and
    [pos_to_node] returns a node, the one at [array[-1][0]].  With origin
    (1,1) the position (0,0) is looked up at [array[0][0]]: the origin is
    not added. *)
Theorem pos_to_node_wrong_cell :
  (m ← unit_map 3 2 []; pos_to_node (int_pos 2 0) m) = Error IndexError /\
  (m ← unit_map 2 2 []; n ← pos_to_node (int_pos (-1) 0) m; mret (coords n))
  = Ok (0, 1) /\
  (m ← Map_init (int_pos 1 1) (PyInt 2) (PyInt 2) [] (PyInt 1);
   n ← pos_to_node (int_pos 0 0) m; mret (coords n))
  = Ok (0, 0).
Proof. repeat split; reflexivity. Qed.

(** C5 (heuristic), for the child at the target.  On the 2 x 1 grid with
    target (1,0), parent (0,0) and child (1,0), the Euclidean distance from
    the child to the target is 0.  [calculate_score] raises TypeError
    whatever the square root, because it calls the tuple [child.coords];
    line 26 takes the root of 0, and the sum of line 27 for the distance
    0.0, the parent's heuristic 0 and the footprint 1 is 1.0, above the
    distance. *)
Theorem calculate_score_at_target (pow_half : num -> num) :
  (m ← unit_map 2 1 [];
   p ← cell_at m 0 0;
   c ← cell_at m 1 0;
   calculate_score pow_half (Astar_init m (int_pos 0 0) (int_pos 1 0))
                   p c (int_pos 1 0))
  = Error TypeError /\
  dist_to_target pow_half (int_pos 1 0) (int_pos 1 0) = pow_half (PyInt 0) /\
  score_sum (PyFloat 0) (heuristic (Node_init (0, 0))) (PyInt 1) = PyFloat 1.
Proof. repeat split; reflexivity. Qed.






(** C9 (obstacles outside the grid), as the code has it.  Nothing is
    clipped: on a grid of [W] columns and [H] rows, an obstacle whose index
    range [left..right] x [bottom..top] is not empty and reaches a row
    index >= H or a column index >= W makes [create_obstacles] raise
    IndexError. *)
Theorem create_obstacles_overflow (W H : nat) (self : Map) (o : Obstacle)
    (obs : list Obstacle) (t b l r : Z) :
  grid_ok W H (array self) ->
  obstacle_indices (origin self) (drone_dim self) o = Ok (t, b, l, r) ->
  b <= t -> l <= r ->
  Z.of_nat H <= t \/ Z.of_nat W <= r ->
  create_obstacles self (o :: obs) = Error IndexError.
Proof.
  intros Hg Hi Hbt Hlr Hout. unfold create_obstacles. cbn [create_obstacles_array].
  rewrite Hi. cbn.
  rewrite (mark_range_overflow W H _ t b l r Hg Hbt Hlr Hout). reflexivity.
Qed.

Lemma create_obstacles_overflow_witness :
  create_obstacles (unit_grid 2 2) [wide_obstacle] = Error IndexError.
Proof.
  apply (create_obstacles_overflow 2 2 (unit_grid 2 2) wide_obstacle [] 1 0 1 2).
  - apply (fresh_array_grid_ok 2 2).
  - reflexivity.
  - lia.
  - lia.
  - right. lia.
Defined.

(** C9 as stated fails on the 2 x 2 grid for the obstacle with corners
    (1,0) and (2,1), which lies partly outside: building the map raises
    IndexError instead of marking the cells (1,0) and (1,1). *)
Lemma partly_outside_obstacle_raises :
  Obstacle_init (rectangle 1 0 2 1) = Ok wide_obstacle /\
  (o ← Obstacle_init (rectangle 1 0 2 1); unit_map 2 2 [o]) = Error IndexError.
Proof. split; reflexivity. Qed.

(** C10 (row-first indexing), at the 2 x 2 grid.  The array is built
    row-first, [array[y][x]] holding the node (x, y), and [get_neighbors]
    and [create_obstacles] read it that way; [pos_to_node] reads
    [array[node_x][node_y]], so the position (1,0) yields the node
    (0,1). *)
Theorem pos_to_node_transposed :
  (m ← unit_map 2 2 []; n ← cell_at m 1 0; mret (coords n)) = Ok (1, 0) /\
  (m ← unit_map 2 2 [];
   row ← py_index (array m) 0; n ← py_index row 1; mret (coords n))
  = Ok (1, 0) /\
  (m ← unit_map 2 2 []; n ← pos_to_node (int_pos 1 0) m; mret (coords n))
  = Ok (0, 1).
Proof. repeat split; reflexivity. Qed.

(** * Further properties of the code *)

(** ** Obstacle *)

Lemma num_ltb_false (a b : num) : num_ltb a b = false -> num_leb b a = true.
Proof. unfold num_ltb, num_leb. destruct (Qle_bool _ _); [reflexivity|discriminate]. Qed.

Lemma num_ltb_true (a b : num) : num_ltb a b = true -> num_leb a b = true.
Proof.
  unfold num_ltb, num_leb. intros H. apply Qle_bool_iff.
  destruct (Qle_bool (to_Q b) (to_Q a)) eqn:E; [discriminate|].
  apply Qlt_le_weak, Qnot_le_lt. intros Hle.
  apply Qle_bool_iff in Hle. congruence.
Qed.

Lemma num_leb_refl (a : num) : num_leb a a = true.
Proof. apply Qle_bool_iff, Qle_refl. Qed.

Lemma num_leb_trans (a b c : num) :
  num_leb a b = true -> num_leb b c = true -> num_leb a c = true.
Proof.
  unfold num_leb. rewrite !Qle_bool_iff. apply Qle_trans.
Qed.

Lemma fold_max_spec (t : list num) :
  forall x r,
  fold_left (fun m y => if num_ltb m y then y else m) t x = r ->
  r ∈ x :: t /\ forall y, y ∈ x :: t -> num_leb y r = true.
Proof.
  induction t as [|z t IH]; intros x r Hr; simpl in Hr.
  - subst r. split; [apply list_elem_of_here|].
    intros y Hy. apply list_elem_of_singleton in Hy as ->. apply num_leb_refl.
  - destruct (IH _ _ Hr) as [Hin Hle]. split.
    + apply elem_of_cons in Hin as [->|Hin].
      * destruct (num_ltb x z); [apply list_elem_of_further|]; apply list_elem_of_here.
      * do 2 apply list_elem_of_further. exact Hin.
    + intros y Hy.
      assert (Hm : num_leb x (if num_ltb x z then z else x) = true /\
                   num_leb z (if num_ltb x z then z else x) = true).
      { destruct (num_ltb x z) eqn:E.
        - split; [apply num_ltb_true; exact E | apply num_leb_refl].
        - split; [apply num_leb_refl | apply num_ltb_false; exact E]. }
      destruct Hm as [Hx Hz].
      assert (Htop : num_leb (if num_ltb x z then z else x) r = true)
        by (apply Hle, list_elem_of_here).
      apply elem_of_cons in Hy as [->|Hy]; [exact (num_leb_trans _ _ _ Hx Htop)|].
      apply elem_of_cons in Hy as [->|Hy]; [exact (num_leb_trans _ _ _ Hz Htop)|].
      apply Hle, list_elem_of_further, Hy.
Qed.

Lemma fold_min_spec (t : list num) :
  forall x r,
  fold_left (fun m y => if num_ltb y m then y else m) t x = r ->
  r ∈ x :: t /\ forall y, y ∈ x :: t -> num_leb r y = true.
Proof.
  induction t as [|z t IH]; intros x r Hr; simpl in Hr.
  - subst r. split; [apply list_elem_of_here|].
    intros y Hy. apply list_elem_of_singleton in Hy as ->. apply num_leb_refl.
  - destruct (IH _ _ Hr) as [Hin Hle]. split.
    + apply elem_of_cons in Hin as [->|Hin].
      * destruct (num_ltb z x); [apply list_elem_of_further|]; apply list_elem_of_here.
      * do 2 apply list_elem_of_further. exact Hin.
    + intros y Hy.
      assert (Hm : num_leb (if num_ltb z x then z else x) x = true /\
                   num_leb (if num_ltb z x then z else x) z = true).
      { destruct (num_ltb z x) eqn:E.
        - split; [apply num_ltb_true; exact E | apply num_leb_refl].
        - split; [apply num_leb_refl | apply num_ltb_false; exact E]. }
      destruct Hm as [Hx Hz].
      assert (Hbot : num_leb r (if num_ltb z x then z else x) = true)
        by (apply Hle, list_elem_of_here).
      apply elem_of_cons in Hy as [->|Hy]; [exact (num_leb_trans _ _ _ Hbot Hx)|].
      apply elem_of_cons in Hy as [->|Hy]; [exact (num_leb_trans _ _ _ Hbot Hz)|].
      apply Hle, list_elem_of_further, Hy.
Qed.

Lemma num_max_spec (l : list num) (r : num) :
  num_max l = Ok r -> r ∈ l /\ forall y, y ∈ l -> num_leb y r = true.
Proof.
  destruct l as [|x t]; [discriminate|]. simpl. intros [= Hr].
  exact (fold_max_spec t x r Hr).
Qed.

Lemma num_min_spec (l : list num) (r : num) :
  num_min l = Ok r -> r ∈ l /\ forall y, y ∈ l -> num_leb r y = true.
Proof.
  destruct l as [|x t]; [discriminate|]. simpl. intros [= Hr].
  exact (fold_min_spec t x r Hr).
Qed.

(** X1.  [Obstacle.__init__] fails on the empty vertex list, with the ValueError
    of [max([])], and on no other list; otherwise it keeps the vertices it
    was given. *)
Theorem Obstacle_init_total (vs : list pos) :
  match vs with
  | [] => Obstacle_init vs = Error ValueError
  | _ :: _ => exists o, Obstacle_init vs = Ok o /\ vertices o = vs
  end.
Proof.
  destruct vs as [|v vs]; [reflexivity|].
  eexists. split; reflexivity.
Qed.

(** X2.  The bounds of an obstacle enclose every vertex it was built from, and
    each bound is the coordinate of one of them. *)
Theorem Obstacle_init_bounds (vs : list pos) (o : Obstacle) :
  Obstacle_init vs = Ok o ->
  (forall v, v ∈ vs ->
     num_leb (left o) (fst v) = true /\ num_leb (fst v) (right o) = true /\
     num_leb (bottom o) (snd v) = true /\ num_leb (snd v) (top o) = true) /\
  top o ∈ map snd vs /\ bottom o ∈ map snd vs /\
  left o ∈ map fst vs /\ right o ∈ map fst vs.
Proof.
  unfold Obstacle_init. intros Hi.
  apply bind_Ok in Hi as (t & Ht & Hi).
  apply bind_Ok in Hi as (b & Hb & Hi).
  apply bind_Ok in Hi as (l & Hl & Hi).
  apply bind_Ok in Hi as (r & Hr & Hi).
  injection Hi as <-. cbn [top bottom left right].
  apply num_max_spec in Ht as [Ht1 Ht2]. apply num_min_spec in Hb as [Hb1 Hb2].
  apply num_min_spec in Hl as [Hl1 Hl2]. apply num_max_spec in Hr as [Hr1 Hr2].
  repeat split; try assumption.
  - apply Hl2. apply (list_elem_of_fmap_2 fst). assumption.
  - apply Hr2. apply (list_elem_of_fmap_2 fst). assumption.
  - apply Hb2. apply (list_elem_of_fmap_2 snd). assumption.
  - apply Ht2. apply (list_elem_of_fmap_2 snd). assumption.
Qed.

Lemma Obstacle_init_bounds_witness :
  Obstacle_init (rectangle 1 0 2 1) = Ok wide_obstacle /\
  ((forall v, v ∈ rectangle 1 0 2 1 ->
      num_leb (left wide_obstacle) (fst v) = true /\
      num_leb (fst v) (right wide_obstacle) = true /\
      num_leb (bottom wide_obstacle) (snd v) = true /\
      num_leb (snd v) (top wide_obstacle) = true) /\
   top wide_obstacle ∈ map snd (rectangle 1 0 2 1) /\
   bottom wide_obstacle ∈ map snd (rectangle 1 0 2 1) /\
   left wide_obstacle ∈ map fst (rectangle 1 0 2 1) /\
   right wide_obstacle ∈ map fst (rectangle 1 0 2 1)).
Proof.
  split; [reflexivity | apply Obstacle_init_bounds; reflexivity].
Defined.

(** ** Node *)

(** X3.  The stored total cost never drifts from g + h: a new node has it, the
    setters of g and h restore it whatever the node, and the setters of the
    obstacle flag and of the parent keep it. *)
Theorem f_cost_kept_in_step (n : Node) (c : Z * Z) (v : num) (b : bool)
    (p : option Node) :
  f_synced (Node_init c) /\
  f_synced (set_cost n v) /\
  f_synced (set_heuristic n v) /\
  (f_synced n -> f_synced (set_obstacle n b) /\ f_synced (set_parent n p)).
Proof.
  unfold f_synced, f_cost. repeat split; try reflexivity; simpl; assumption.
Qed.

(** X4.  [Node.__eq__] holds exactly when the coordinates are equal; the
    obstacle flag, the costs and the parent play no part. *)
Theorem Node_eq_coords (a b : Node) :
  Node_eq a b = true <-> coords a = coords b.
Proof.
  unfold Node_eq. rewrite andb_true_iff, !Z.eqb_eq.
  destruct (coords a) as [xa ya], (coords b) as [xb yb]. simpl.
  split; [intros [-> ->]; reflexivity | intros [= -> ->]; split; reflexivity].
Qed.

Lemma Node_eq_setters (a b : Node) (flag : bool) (v : num) (p : option Node) :
  Node_eq (set_obstacle a flag) b = Node_eq a b /\
  Node_eq (set_cost a v) b = Node_eq a b /\
  Node_eq (set_heuristic a v) b = Node_eq a b /\
  Node_eq (set_parent a p) b = Node_eq a b.
Proof. repeat split; reflexivity. Qed.

(** ** Map construction *)

Lemma elem_of_py_range (n x : Z) : x ∈ py_range n <-> 0 <= x < n.
Proof. apply elem_of_py_range2. Qed.

Lemma fresh_array_nodes (nx ny : Z) (row : list Node) (n : Node) :
  row ∈ fresh_array nx ny -> n ∈ row ->
  exists x y, n = Node_init (x, y) /\ 0 <= x < nx /\ 0 <= y < ny.
Proof.
  unfold fresh_array. intros Hrow Hn.
  apply list_elem_of_fmap in Hrow as (y & -> & Hy).
  apply list_elem_of_fmap in Hn as (x & -> & Hx).
  apply elem_of_py_range in Hy. apply elem_of_py_range in Hx.
  exists x, y. auto.
Qed.

(** X5.  A footprint of zero makes [Map.__init__] raise ZeroDivisionError on
    line 34, whatever the origin, the obstacles and [dim_x].  When the
    footprint is the float 0.0, [dim_y] is converted to a float before the
    division, so an int [dim_y] has to fit a double. *)
Theorem Map_init_zero_footprint (org : pos) (dx dy dd : num)
    (obs : list Obstacle) :
  num_is_zero dd = true ->
  (is_float dd = true -> fits_double dy = true) ->
  Map_init org dx dy obs dd = Error ZeroDivisionError.
Proof. intros Hz _. unfold Map_init, num_truediv. rewrite Hz. reflexivity. Qed.

Lemma Map_init_zero_footprint_witness :
  num_is_zero (PyFloat 0) = true /\
  (is_float (PyFloat 0) = true -> fits_double (PyInt 2) = true) /\
  Map_init (int_pos 0 0) (PyInt 2) (PyInt 2) [wide_obstacle] (PyFloat 0)
  = Error ZeroDivisionError.
Proof.
  split; [reflexivity|]. split; [intros _; vm_compute; reflexivity|].
  apply Map_init_zero_footprint; [reflexivity | intros _; vm_compute; reflexivity].
Defined.

(** X6.  Whenever [Map.__init__] returns a map for an empty obstacle list,
    the map keeps the origin, the dimensions and the footprint it was
    given, and every node of its array is free, has no parent and has the
    total cost 0. *)
Theorem Map_init_no_obstacles (org : pos) (dx dy dd : num) (m : Map) :
  Map_init org dx dy [] dd = Ok m ->
  origin m = org /\ dim_x m = dx /\ dim_y m = dy /\ drone_dim m = dd /\
  forall row n, row ∈ array m -> n ∈ row ->
    is_obstacle n = false /\ parent n = None /\ f_cost n = PyInt 0.
Proof.
  unfold Map_init. intros Hi.
  apply bind_Ok in Hi as (qy & _ & Hi).
  apply bind_Ok in Hi as (qx & _ & Hi).
  injection Hi as <-. cbn.
  split; [reflexivity|]. split; [reflexivity|]. split; [reflexivity|].
  split; [reflexivity|].
  intros row n Hrow Hn.
  destruct (fresh_array_nodes _ _ _ _ Hrow Hn) as (x & y & -> & _).
  repeat split; reflexivity.
Qed.

Lemma Map_init_no_obstacles_witness :
  exists m,
    Map_init (int_pos 0 0) (PyInt 1) (PyInt 1) [] half_cell = Ok m /\
    length (array m) = 2%nat /\
    origin m = int_pos 0 0 /\ dim_x m = PyInt 1 /\ dim_y m = PyInt 1 /\
    drone_dim m = half_cell /\
    forall row n, row ∈ array m -> n ∈ row ->
      is_obstacle n = false /\ parent n = None /\ f_cost n = PyInt 0.
Proof.
  eexists. split; [reflexivity|]. split; [reflexivity|].
  apply (Map_init_no_obstacles (int_pos 0 0) (PyInt 1) (PyInt 1) half_cell).
  reflexivity.
Defined.

(** X7.  A map that [Map.__init__] returns is stored row-first: it has
    [cells_y] rows, and for every column [x] and row [y] inside the grid
    [array[y][x]] is the node with the coordinates [(x, y)], whatever
    obstacles were marked. *)
Theorem Map_init_row_first (org : pos) (dx dy dd : num) (obs : list Obstacle)
    (m : Map) (x y : Z) :
  Map_init org dx dy obs dd = Ok m ->
  0 <= x < cells_x m -> 0 <= y < cells_y m ->
  length (array m) = Z.to_nat (cells_y m) /\
  exists n, cell_at m x y = Ok n /\ coords n = (x, y).
Proof.
  intros Hi Hx Hy. split.
  - exact (proj1 (Map_init_grid_ok _ _ _ _ _ _ Hi)).
  - exact (Map_init_getitem _ _ _ _ _ _ _ _ Hi Hx Hy).
Qed.

Lemma Map_init_row_first_witness :
  length (array (unit_grid 3 2)) = Z.to_nat (cells_y (unit_grid 3 2)) /\
  exists n, cell_at (unit_grid 3 2) 2 1 = Ok n /\ coords n = (2, 1).
Proof.
  apply (Map_init_row_first (int_pos 0 0) (PyInt 3) (PyInt 2) (PyInt 1) []);
    [reflexivity | vm_compute; split; [discriminate | reflexivity]
     | vm_compute; split; [discriminate | reflexivity]].
Defined.

(** ** Obstacle marking *)

Lemma occ_insert (arr : list (list Node)) (row : list Node) (n : Node)
    (i0 j0 i j : nat) :
  arr !! j0 = Some row -> row !! i0 = Some n ->
  occ (<[j0 := <[i0 := set_obstacle n true]> row]> arr) i j = true <->
  occ arr i j = true \/ (i = i0 /\ j = j0).
Proof.
  intros Hrow Hn. unfold occ.
  pose proof (lookup_lt_Some _ _ _ Hrow) as Hj0.
  pose proof (lookup_lt_Some _ _ _ Hn) as Hi0.
  destruct (decide (j = j0)) as [->|Hj].
  - rewrite list_lookup_insert_eq by exact Hj0. rewrite Hrow.
    destruct (decide (i = i0)) as [->|Hi].
    + rewrite list_lookup_insert_eq by exact Hi0. simpl. tauto.
    + rewrite list_lookup_insert_ne by congruence.
      split; [auto | intros [H|[H _]]; [exact H | contradiction]].
  - rewrite list_lookup_insert_ne by congruence.
    split; [auto | intros [H|[_ H]]; [exact H | contradiction]].
Qed.

Lemma mark_cell_effect (arr arr' : list (list Node)) (y x : Z) :
  mark_cell arr y x = Ok arr' ->
  exists i0 j0 row,
    norm_index (length arr) y = Some j0 /\ arr !! j0 = Some row /\
    norm_index (length row) x = Some i0 /\
    forall i j, occ arr' i j = true <-> occ arr i j = true \/ (i = i0 /\ j = j0).
Proof.
  unfold mark_cell. intros Hm.
  apply bind_Ok in Hm as (row & Hrow & Hm).
  apply bind_Ok in Hm as (n & Hn & Hm).
  apply py_index_Ok in Hrow as (j0 & Hj & Hrow).
  apply py_index_Ok in Hn as (i0 & Hi & Hn).
  rewrite Hj, Hi in Hm. injection Hm as <-.
  exists i0, j0, row. split; [exact Hj|]. split; [exact Hrow|].
  split; [exact Hi|]. intros i j. apply occ_insert; assumption.
Qed.

Lemma mark_cell_in_bounds (W H : nat) (arr : list (list Node)) (y x : Z) :
  grid_ok W H arr -> 0 <= y < Z.of_nat H -> 0 <= x < Z.of_nat W ->
  exists arr', mark_cell arr y x = Ok arr'.
Proof.
  intros [Hlen Hrows] Hy Hx. unfold mark_cell.
  destruct (lookup_lt_is_Some_2 arr (Z.to_nat y)) as [row Hrow]; [lia|].
  destruct (Hrows _ _ Hrow) as [Hw _].
  destruct (lookup_lt_is_Some_2 row (Z.to_nat x)) as [n Hn]; [lia|].
  rewrite py_index_in_range by lia. rewrite Hrow. cbn.
  rewrite py_index_in_range by lia. rewrite Hn. cbn.
  rewrite !norm_index_in_range by lia. eexists. reflexivity.
Qed.

Lemma mark_row_in_bounds (W H : nat) (xs : list Z) :
  forall (arr : list (list Node)) (y : Z),
  grid_ok W H arr -> 0 <= y < Z.of_nat H ->
  (forall x, x ∈ xs -> 0 <= x < Z.of_nat W) ->
  exists arr', mark_row arr y xs = Ok arr' /\ grid_ok W H arr' /\
    forall i j, occ arr' i j = true <->
      occ arr i j = true \/ (Z.of_nat i ∈ xs /\ Z.of_nat j = y).
Proof.
  induction xs as [|x xs IH]; intros arr y Hg Hy Hxs; simpl.
  - exists arr. split; [reflexivity|]. split; [exact Hg|].
    intros i j. split; [tauto|].
    intros [H0|[H0 _]]; [exact H0 | inversion H0].
  - destruct (mark_cell_in_bounds W H arr y x Hg Hy) as [arr1 Hc];
      [apply Hxs, list_elem_of_here|].
    rewrite Hc. cbn.
    destruct (mark_cell_Ok _ _ _ _ _ _ Hg Hc) as (Hg1 & _).
    destruct (mark_cell_effect _ _ _ _ Hc) as (i0 & j0 & row & Hj & _ & Hi & Heff).
    apply norm_index_Some in Hj as (_ & _ & Hj).
    destruct (IH arr1 y Hg1 Hy) as (arr' & Hr & Hg' & Hocc).
    { intros x' Hx'. apply Hxs, list_elem_of_further, Hx'. }
    exists arr'. split; [exact Hr|]. split; [exact Hg'|]. intros i j. split.
    + intros Ho. apply Hocc in Ho as [Ho|[Hin Hjy]].
      * apply Heff in Ho as [Ho|[-> ->]]; [left; exact Ho|].
        right. apply norm_index_Some in Hi as (_ & _ & Hi).
        assert (0 <= x < Z.of_nat W) by (apply Hxs, list_elem_of_here).
        destruct (y <? 0) eqn:Ey; [lia|]. destruct (x <? 0) eqn:Ex; [lia|].
        split; [rewrite Hi; apply list_elem_of_here | exact Hj].
      * right. split; [apply list_elem_of_further, Hin | exact Hjy].
    + intros [Ho|[Hin Hjy]].
      * apply Hocc. left. apply Heff. left. exact Ho.
      * apply Hocc. apply elem_of_cons in Hin as [Hix|Hin].
        -- left. apply Heff. right.
           apply norm_index_Some in Hi as (_ & _ & Hi).
           assert (0 <= x < Z.of_nat W) by (apply Hxs, list_elem_of_here).
           destruct (y <? 0) eqn:Ey; [lia|]. destruct (x <? 0) eqn:Ex; [lia|].
           split; lia.
        -- right. split; assumption.
Qed.

Lemma mark_rows_in_bounds (W H : nat) (xs ys : list Z) :
  forall (arr : list (list Node)),
  grid_ok W H arr ->
  (forall y, y ∈ ys -> 0 <= y < Z.of_nat H) ->
  (forall x, x ∈ xs -> 0 <= x < Z.of_nat W) ->
  exists arr', mark_rows arr ys xs = Ok arr' /\ grid_ok W H arr' /\
    forall i j, occ arr' i j = true <->
      occ arr i j = true \/ (Z.of_nat i ∈ xs /\ Z.of_nat j ∈ ys).
Proof.
  induction ys as [|y ys IH]; intros arr Hg Hys Hxs; simpl.
  - exists arr. split; [reflexivity|]. split; [exact Hg|].
    intros i j. split; [tauto|].
    intros [H0|[_ H0]]; [exact H0 | inversion H0].
  - destruct (mark_row_in_bounds W H xs arr y Hg) as (arr1 & Hr & Hg1 & Hocc1);
      [apply Hys, list_elem_of_here | exact Hxs |].
    rewrite Hr. cbn.
    destruct (IH arr1 Hg1) as (arr' & Hrs & Hg' & Hocc);
      [intros y' Hy'; apply Hys, list_elem_of_further, Hy' | exact Hxs |].
    exists arr'. split; [exact Hrs|]. split; [exact Hg'|]. intros i j. split.
    + intros Ho. apply Hocc in Ho as [Ho|[Hi Hj]].
      * apply Hocc1 in Ho as [Ho|[Hi Hj]]; [left; exact Ho|].
        right. split; [exact Hi | rewrite Hj; apply list_elem_of_here].
      * right. split; [exact Hi | apply list_elem_of_further, Hj].
    + intros [Ho|[Hi Hj]]; apply Hocc.
      * left. apply Hocc1. left. exact Ho.
      * apply elem_of_cons in Hj as [Hj|Hj].
        -- left. apply Hocc1. right. split; assumption.
        -- right. split; assumption.
Qed.

(** X8.  An obstacle whose index range lies inside the grid is marked without
    error, and afterwards a cell is occupied exactly when it was before or
    it lies in the inclusive range [left..right] x [bottom..top]. *)
Theorem create_obstacles_in_bounds (W H : nat) (self : Map) (o : Obstacle)
    (t b l r : Z) :
  grid_ok W H (array self) ->
  obstacle_indices (origin self) (drone_dim self) o = Ok (t, b, l, r) ->
  0 <= b -> t < Z.of_nat H -> 0 <= l -> r < Z.of_nat W ->
  exists m, create_obstacles self [o] = Ok m /\
    grid_ok W H (array m) /\
    forall i j, occ (array m) i j = true <->
      occ (array self) i j = true \/
      (l <= Z.of_nat i <= r /\ b <= Z.of_nat j <= t).
Proof.
  intros Hg Hi Hb Ht Hl Hr.
  destruct (mark_rows_in_bounds W H (py_range2 l (r + 1)) (py_range2 b (t + 1))
              (array self) Hg) as (arr' & Hm & Hg' & Hocc).
  { intros y Hy. apply elem_of_py_range2 in Hy. lia. }
  { intros x Hx. apply elem_of_py_range2 in Hx. lia. }
  exists (with_array self arr'). split.
  - unfold create_obstacles. cbn [create_obstacles_array]. rewrite Hi. cbn.
    unfold mark_range. rewrite Hm. reflexivity.
  - split; [exact Hg'|]. intros i j. cbn [with_array array].
    rewrite Hocc, !elem_of_py_range2.
    split; (intros [Ho|[Hx Hy]]; [left; exact Ho | right; lia]).
Qed.

Lemma create_obstacles_in_bounds_witness :
  exists m, create_obstacles (unit_grid 3 3) [wide_obstacle] = Ok m /\
    grid_ok 3 3 (array m) /\
    forall i j, occ (array m) i j = true <->
      occ (array (unit_grid 3 3)) i j = true \/
      (1 <= Z.of_nat i <= 2 /\ 0 <= Z.of_nat j <= 1).
Proof.
  apply (create_obstacles_in_bounds 3 3 (unit_grid 3 3) wide_obstacle 1 0 1 2).
  - apply (fresh_array_grid_ok 3 3).
  - reflexivity.
  - lia.
  - lia.
  - lia.
  - lia.
Defined.

Lemma same_or_marked_refl (n : Node) : same_or_marked n n.
Proof. left. reflexivity. Qed.

Lemma same_or_marked_trans (a b c : Node) :
  same_or_marked a b -> same_or_marked b c -> same_or_marked a c.
Proof.
  unfold same_or_marked. intros [->| ->] [->| ->]; auto.
Qed.

Lemma marked_from_refl (arr : list (list Node)) : marked_from arr arr.
Proof.
  apply Forall_Forall2_diag, Forall_forall. intros row _.
  apply Forall_Forall2_diag, Forall_forall. intros n _.
  apply same_or_marked_refl.
Qed.

Lemma marked_from_trans (a b c : list (list Node)) :
  marked_from a b -> marked_from b c -> marked_from a c.
Proof.
  unfold marked_from. intros Hab Hbc.
  eapply Forall2_trans; [|exact Hab|exact Hbc].
  intros r1 r2 r3 H12 H23.
  eapply Forall2_trans; [|exact H12|exact H23].
  intros n1 n2 n3. apply same_or_marked_trans.
Qed.

Lemma mark_cell_marked_from (arr arr' : list (list Node)) (y x : Z) :
  mark_cell arr y x = Ok arr' -> marked_from arr arr'.
Proof.
  unfold mark_cell. intros Hm.
  apply bind_Ok in Hm as (row & Hrow & Hm).
  apply bind_Ok in Hm as (n & Hn & Hm).
  apply py_index_Ok in Hrow as (j0 & Hj & Hrow).
  apply py_index_Ok in Hn as (i0 & Hi & Hn).
  rewrite Hj, Hi in Hm. injection Hm as <-.
  unfold marked_from.
  rewrite <- (list_insert_id arr j0 row Hrow) at 1.
  apply Forall2_insert; [apply marked_from_refl|].
  rewrite <- (list_insert_id row i0 n Hn) at 1.
  apply Forall2_insert.
  - apply Forall_Forall2_diag, Forall_forall. intros k _.
    apply same_or_marked_refl.
  - right. reflexivity.
Qed.

Lemma mark_row_marked_from (xs : list Z) :
  forall (arr arr' : list (list Node)) (y : Z),
  mark_row arr y xs = Ok arr' -> marked_from arr arr'.
Proof.
  induction xs as [|x xs IH]; intros arr arr' y Hm; simpl in Hm.
  - injection Hm as <-. apply marked_from_refl.
  - apply bind_Ok in Hm as (arr1 & Hc & Hm).
    exact (marked_from_trans _ _ _ (mark_cell_marked_from _ _ _ _ Hc) (IH _ _ _ Hm)).
Qed.

Lemma mark_rows_marked_from (xs ys : list Z) :
  forall (arr arr' : list (list Node)),
  mark_rows arr ys xs = Ok arr' -> marked_from arr arr'.
Proof.
  induction ys as [|y ys IH]; intros arr arr' Hm; simpl in Hm.
  - injection Hm as <-. apply marked_from_refl.
  - apply bind_Ok in Hm as (arr1 & Hr & Hm).
    exact (marked_from_trans _ _ _ (mark_row_marked_from _ _ _ _ Hr) (IH _ _ Hm)).
Qed.

Lemma create_obstacles_array_marked_from (org : pos) (dd : num)
    (obs : list Obstacle) :
  forall (arr arr' : list (list Node)),
  create_obstacles_array org dd arr obs = Ok arr' -> marked_from arr arr'.
Proof.
  induction obs as [|o obs IH]; intros arr arr' Hc; simpl in Hc.
  - injection Hc as <-. apply marked_from_refl.
  - apply bind_Ok in Hc as ([[[t b] l] r] & _ & Hc).
    apply bind_Ok in Hc as (arr1 & Hm & Hc).
    exact (marked_from_trans _ _ _ (mark_rows_marked_from _ _ _ _ Hm) (IH _ _ Hc)).
Qed.

Lemma marked_from_node_at (arr arr' : list (list Node)) (i j : nat) (n : Node) :
  marked_from arr arr' -> node_at arr i j = Some n ->
  exists n', node_at arr' i j = Some n' /\ same_or_marked n n'.
Proof.
  unfold marked_from, node_at. intros Hm Hn.
  destruct (arr !! j) as [row|] eqn:Hrow; [|discriminate].
  destruct (Forall2_lookup_l _ _ _ _ _ Hm Hrow) as (row' & Hrow' & Hr).
  destruct (Forall2_lookup_l _ _ _ _ _ Hr Hn) as (n' & Hn' & Hnn).
  exists n'. rewrite Hrow'. auto.
Qed.

(** X9.  Marking obstacles only ever sets obstacle flags.  When
    [create_obstacles] returns, the array has as many rows as before, and
    each node is still in its place with its coordinates, parent, g and h;
    a node that was occupied is still occupied. *)
Theorem create_obstacles_only_marks (self m : Map) (obs : list Obstacle)
    (i j : nat) (n : Node) :
  create_obstacles self obs = Ok m ->
  node_at (array self) i j = Some n ->
  length (array m) = length (array self) /\
  exists n', node_at (array m) i j = Some n' /\
    coords n' = coords n /\ parent n' = parent n /\
    cost n' = cost n /\ heuristic n' = heuristic n /\
    (is_obstacle n = true -> is_obstacle n' = true).
Proof.
  unfold create_obstacles. intros Hc Hn.
  apply bind_Ok in Hc as (arr & Ha & Hc). injection Hc as <-.
  cbn [with_array array].
  apply create_obstacles_array_marked_from in Ha.
  split; [symmetry; exact (Forall2_length _ _ _ Ha)|].
  destruct (marked_from_node_at _ _ _ _ _ Ha Hn) as (n' & Hn' & Hs).
  exists n'. split; [exact Hn'|].
  destruct Hs as [->| ->]; repeat split; auto.
Qed.

Lemma create_obstacles_only_marks_witness :
  exists m n,
    create_obstacles (unit_grid 3 3) [wide_obstacle] = Ok m /\
    node_at (array (unit_grid 3 3)) 1 0 = Some n /\
    length (array m) = length (array (unit_grid 3 3)) /\
    exists n', node_at (array m) 1 0 = Some n' /\
      coords n' = coords n /\ parent n' = parent n /\
      cost n' = cost n /\ heuristic n' = heuristic n /\
      (is_obstacle n = true -> is_obstacle n' = true).
Proof.
  eexists. eexists.
  split; [reflexivity|]. split; [reflexivity|].
  eapply (create_obstacles_only_marks (unit_grid 3 3) _ [wide_obstacle] 1 0);
    reflexivity.
Defined.

Lemma mark_rows_no_columns (ys : list Z) (arr : list (list Node)) :
  mark_rows arr ys [] = Ok arr.
Proof. induction ys as [|y ys IH]; simpl; [reflexivity | exact IH]. Qed.

Lemma py_range2_empty (a b : Z) : b <= a -> py_range2 a b = [].
Proof.
  intros Hab. unfold py_range2.
  replace (Z.to_nat (b - a)) with 0%nat by lia. reflexivity.
Qed.

(** X10.  An obstacle whose index range is empty (top below bottom, or right
    below left, as a negative footprint produces) leaves the map as it is:
    no cell is read, so indices outside the array raise nothing. *)
Theorem create_obstacles_empty_range (self : Map) (o : Obstacle) (t b l r : Z) :
  obstacle_indices (origin self) (drone_dim self) o = Ok (t, b, l, r) ->
  t < b \/ r < l ->
  create_obstacles self [o] = Ok self.
Proof.
  intros Hi Hempty. unfold create_obstacles. cbn [create_obstacles_array].
  rewrite Hi. cbn. unfold mark_range.
  assert (Hm : mark_rows (array self) (py_range2 b (t + 1)) (py_range2 l (r + 1))
               = Ok (array self)).
  { destruct Hempty as [Ht|Hr].
    - rewrite (py_range2_empty b (t + 1)) by lia. reflexivity.
    - rewrite (py_range2_empty l (r + 1)) by lia. apply mark_rows_no_columns. }
  rewrite Hm. cbn. destruct self; reflexivity.
Qed.

Lemma create_obstacles_empty_range_witness :
  obstacle_indices (origin negative_map) (drone_dim negative_map) wide_obstacle
  = Ok (-1, 0, -1, -2) /\
  create_obstacles negative_map [wide_obstacle] = Ok negative_map.
Proof.
  split; [reflexivity|].
  apply (create_obstacles_empty_range negative_map wide_obstacle (-1) 0 (-1) (-2));
    [reflexivity | left; lia].
Defined.

Example negative_map_built :
  Map_init (int_pos 0 0) (PyInt 2) (PyInt 2) [] (PyInt (-1)) = Ok negative_map.
Proof. reflexivity. Qed.

(** ** Neighbours *)

(** X11.  [get_neighbors] returns at most four nodes, none of them an obstacle;
    on a well-formed grid each has one of the four coordinates next to the
    node's, so no diagonal and no far cell is returned. *)
Theorem get_neighbors_sound (W H : nat) (m : Map) (node : Node) (l : list Node) :
  grid_ok W H (array m) ->
  0 <= fst (coords node) -> 0 <= snd (coords node) ->
  get_neighbors m node = Ok l ->
  (length l <= 4)%nat /\
  forall n, n ∈ l ->
    is_obstacle n = false /\
    coords n ∈ [(fst (coords node), snd (coords node) + 1);
                (fst (coords node), snd (coords node) - 1);
                (fst (coords node) - 1, snd (coords node));
                (fst (coords node) + 1, snd (coords node))].
Proof.
  intros Hg Hx Hy Hn. split.
  - unfold get_neighbors in Hn.
    apply bind_Ok in Hn as (row0 & _ & Hn).
    apply bind_Ok in Hn as (t & _ & Hn).
    apply bind_Ok in Hn as (b & _ & Hn).
    apply bind_Ok in Hn as (lf & _ & Hn).
    apply bind_Ok in Hn as (r & _ & Hn).
    injection Hn as <-.
    change (length (omap free_only [t; b; lf; r]) <= 4)%nat. simpl.
    destruct (free_only t), (free_only b), (free_only lf), (free_only r);
      simpl; lia.
  - intros n Hin. split.
    + pose proof (get_neighbors_unoccupied _ _ _ Hn) as Hall.
      rewrite Forall_forall in Hall. exact (Hall n Hin).
    + exact (get_neighbors_adjacent _ _ _ _ _ Hg Hx Hy Hn n Hin).
Qed.

Lemma get_neighbors_sound_witness :
  exists node l,
    cell_at (unit_grid 3 3) 1 1 = Ok node /\
    get_neighbors (unit_grid 3 3) node = Ok l /\
    (length l <= 4)%nat /\
    forall n, n ∈ l ->
      is_obstacle n = false /\
      coords n ∈ [(fst (coords node), snd (coords node) + 1);
                  (fst (coords node), snd (coords node) - 1);
                  (fst (coords node) - 1, snd (coords node));
                  (fst (coords node) + 1, snd (coords node))].
Proof.
  eexists. eexists. split; [reflexivity|]. split; [reflexivity|].
  eapply (get_neighbors_sound 3 3 (unit_grid 3 3));
    [apply (fresh_array_grid_ok 3 3) | vm_compute; discriminate
     | vm_compute; discriminate | reflexivity].
Defined.

Lemma grid_ok_cell (W H : nat) (m : Map) (x y : Z) :
  grid_ok W H (array m) -> 0 <= x < Z.of_nat W -> 0 <= y < Z.of_nat H ->
  exists row n, py_index (array m) y = Ok row /\ length row = W /\
                py_index row x = Ok n /\ coords n = (x, y).
Proof.
  intros [Hlen Hrows] Hx Hy.
  destruct (lookup_lt_is_Some_2 (array m) (Z.to_nat y)) as [row Hrow]; [lia|].
  destruct (Hrows _ _ Hrow) as [Hw Hc].
  destruct (lookup_lt_is_Some_2 row (Z.to_nat x)) as [n Hn]; [lia|].
  exists row, n. repeat split.
  - rewrite py_index_in_range by lia. rewrite Hrow. reflexivity.
  - exact Hw.
  - rewrite py_index_in_range by lia. rewrite Hn. reflexivity.
  - rewrite (Hc _ _ Hn). f_equal; lia.
Qed.

Lemma guarded_cell_value (W H : nat) (m : Map) (skip : bool) (x y : Z) :
  grid_ok W H (array m) ->
  (skip = false -> 0 <= x < Z.of_nat W /\ 0 <= y < Z.of_nat H) ->
  exists o,
    (if skip then mret None
     else row ← py_index (array m) y; n ← py_index row x; mret (Some n)) = Ok o /\
    (skip = false -> exists n, o = Some n /\ cell_at m x y = Ok n).
Proof.
  intros Hg Hb. destruct skip.
  - exists None. split; [reflexivity | discriminate].
  - destruct (Hb eq_refl) as [Hx Hy].
    destruct (grid_ok_cell W H m x y Hg Hx Hy) as (row & n & Hrow & _ & Hn & _).
    exists (Some n). unfold cell_at. rewrite Hrow. cbn. rewrite Hn. cbn.
    split; [reflexivity|]. intros _. exists n. split; reflexivity.
Qed.

(** X12.  On a well-formed grid [get_neighbors] does not fail for a node inside
    it, and it misses no neighbour: every free cell inside the grid that is
    one step up, down, left or right of the node is in the result. *)
Theorem get_neighbors_complete (W H : nat) (m : Map) (node : Node) :
  grid_ok W H (array m) ->
  0 <= fst (coords node) < Z.of_nat W ->
  0 <= snd (coords node) < Z.of_nat H ->
  exists l, get_neighbors m node = Ok l /\
    forall x y n,
      0 <= x < Z.of_nat W -> 0 <= y < Z.of_nat H ->
      Z.abs (x - fst (coords node)) + Z.abs (y - snd (coords node)) = 1 ->
      cell_at m x y = Ok n -> is_obstacle n = false -> n ∈ l.
Proof.
  intros Hg Hx Hy.
  set (cx := fst (coords node)) in *. set (cy := snd (coords node)) in *.
  destruct (grid_ok_cell W H m cx cy Hg Hx Hy) as (rowc & _ & _ & _ & _ & _).
  destruct (grid_ok_cell W H m 0 0 Hg) as (row0 & n0 & Hrow0 & Hw0 & _ & _);
    [lia | lia |].
  pose proof (proj1 Hg) as Hlen.
  destruct (guarded_cell_value W H m (Z.of_nat (length (array m)) <=? cy + 1)
              cx (cy + 1) Hg) as (t & Ht & Htv).
  { intros E. apply Z.leb_gt in E. lia. }
  destruct (guarded_cell_value W H m (cy - 1 <? 0) cx (cy - 1) Hg)
    as (b & Hb & Hbv).
  { intros E. apply Z.ltb_ge in E. lia. }
  destruct (guarded_cell_value W H m (cx - 1 <? 0) (cx - 1) cy Hg)
    as (lf & Hl & Hlv).
  { intros E. apply Z.ltb_ge in E. lia. }
  destruct (guarded_cell_value W H m (Z.of_nat (length row0) <=? cx + 1)
              (cx + 1) cy Hg) as (r & Hr & Hrv).
  { intros E. apply Z.leb_gt in E. lia. }
  exists (omap free_only [t; b; lf; r]). split.
  - unfold get_neighbors. fold cx cy. rewrite Hrow0. cbn.
    rewrite Ht. cbn. rewrite Hb. cbn. rewrite Hl. cbn. rewrite Hr. reflexivity.
  - intros x y n Hxb Hyb Hadj Hcell Hfree.
    apply list_elem_of_omap.
    assert (Hfo : free_only (Some n) = Some n) by (simpl; rewrite Hfree; reflexivity).
    assert (Hcase : (x = cx /\ y = cy + 1) \/ (x = cx /\ y = cy - 1) \/
                    (x = cx - 1 /\ y = cy) \/ (x = cx + 1 /\ y = cy)) by lia.
    destruct Hcase as [[-> ->]|[[-> ->]|[[-> ->]|[-> ->]]]].
    + destruct Htv as (k & -> & Hk); [apply Z.leb_gt; lia|].
      exists (Some n). rewrite Hcell in Hk. injection Hk as <-.
      split; [apply list_elem_of_here | exact Hfo].
    + destruct Hbv as (k & -> & Hk); [apply Z.ltb_ge; lia|].
      exists (Some n). rewrite Hcell in Hk. injection Hk as <-.
      split; [apply list_elem_of_further, list_elem_of_here | exact Hfo].
    + destruct Hlv as (k & -> & Hk); [apply Z.ltb_ge; lia|].
      exists (Some n). rewrite Hcell in Hk. injection Hk as <-.
      split; [do 2 apply list_elem_of_further; apply list_elem_of_here | exact Hfo].
    + destruct Hrv as (k & -> & Hk); [apply Z.leb_gt; lia|].
      exists (Some n). rewrite Hcell in Hk. injection Hk as <-.
      split; [do 3 apply list_elem_of_further; apply list_elem_of_here | exact Hfo].
Qed.

Lemma get_neighbors_complete_witness :
  exists node,
    cell_at (unit_grid 3 3) 1 1 = Ok node /\
    exists l, get_neighbors (unit_grid 3 3) node = Ok l /\
      forall x y n,
        0 <= x < Z.of_nat 3 -> 0 <= y < Z.of_nat 3 ->
        Z.abs (x - fst (coords node)) + Z.abs (y - snd (coords node)) = 1 ->
        cell_at (unit_grid 3 3) x y = Ok n -> is_obstacle n = false -> n ∈ l.
Proof.
  eexists. split; [reflexivity|].
  apply (get_neighbors_complete 3 3 (unit_grid 3 3));
    [apply (fresh_array_grid_ok 3 3)
    | vm_compute; split; [discriminate | reflexivity]
    | vm_compute; split; [discriminate | reflexivity]].
Defined.

(** ** Positions and waypoints *)

Lemma num_is_zero_int (d : Z) : num_is_zero (PyInt d) = false <-> d <> 0.
Proof.
  unfold num_is_zero. simpl. split.
  - intros Hz ->. discriminate.
  - intros Hd. destruct (Qeq_bool (inject_Z d) 0) eqn:E; [|reflexivity].
    apply Qeq_bool_iff in E. unfold Qeq in E. simpl in E. lia.
Qed.

Lemma pos_to_node_float (p : pos) (m : Map) :
  is_float (fst p) = true \/ is_float (drone_dim m) = true ->
  pos_to_node p m
  = Error (if num_is_zero (drone_dim m) then ZeroDivisionError else TypeError).
Proof.
  intros Hf. unfold pos_to_node, num_floordiv.
  destruct (num_is_zero (drone_dim m)); [reflexivity|].
  destruct p as [px py]. simpl in *.
  destruct Hf as [Hf|Hf].
  - destruct px as [zx|qx]; [discriminate|].
    destruct py, (drone_dim m); reflexivity.
  - destruct (drone_dim m) as [zd|qd]; [discriminate|].
    destruct px, py; reflexivity.
Qed.

(** X13.  With a footprint other than zero, a position whose x coordinate
    is a float, or any position on a map whose footprint is a float, is
    never turned into a node: the floor division of line 40 yields a float
    and indexing the array with it raises TypeError.  The coordinates and
    the footprint have to fit a double, since an int that meets a float in
    a floor division is converted first. *)
Theorem pos_to_node_float_input (p : pos) (m : Map) :
  num_is_zero (drone_dim m) = false ->
  is_float (fst p) = true \/ is_float (drone_dim m) = true ->
  fits_double (fst p) = true -> fits_double (snd p) = true ->
  fits_double (drone_dim m) = true ->
  pos_to_node p m = Error TypeError.
Proof.
  intros Hz Hf _ _ _. rewrite (pos_to_node_float p m Hf), Hz. reflexivity.
Qed.

Lemma pos_to_node_float_input_witness :
  exists m,
    Map_init (int_pos 0 0) (PyInt 1) (PyInt 1) [] half_cell = Ok m /\
    pos_to_node (int_pos 0 0) m = Error TypeError.
Proof.
  eexists. split; [reflexivity|].
  apply pos_to_node_float_input;
    [reflexivity | right; reflexivity | vm_compute; reflexivity
    | vm_compute; reflexivity | vm_compute; reflexivity].
Defined.

Lemma waypoint_is_float (a d o : num) :
  is_float (num_sub (num_add (num_mul a d) (num_mul half d)) o) = true.
Proof. destruct a, d, o; reflexivity. Qed.

(** X14.  [sequence_to_path] returns one waypoint per cell, and both coordinates
    of every waypoint are floats.  So no waypoint can be handed back to
    [pos_to_node]: on the same map the lookup raises TypeError, or
    ZeroDivisionError when the footprint is zero. *)
Theorem waypoints_are_not_positions (m : Map) (seq : list (num * num)) :
  length (sequence_to_path m seq) = length seq /\
  Forall (fun p =>
            is_float (fst p) = true /\ is_float (snd p) = true /\
            pos_to_node p m
            = Error (if num_is_zero (drone_dim m) then ZeroDivisionError
                     else TypeError))
         (sequence_to_path m seq).
Proof.
  unfold sequence_to_path. split; [apply length_map|].
  apply Forall_forall. intros p Hp.
  apply list_elem_of_fmap in Hp as (s & -> & _). cbn [fst snd].
  split; [apply waypoint_is_float|]. split; [apply waypoint_is_float|].
  apply pos_to_node_float. left. apply waypoint_is_float.
Qed.

(** X15.  For int coordinates and an int footprint [d], [pos_to_node] reads
    [array[px // d][py // d]]: when px // d is a valid row and py // d a
    valid column of a well-formed grid, the node returned is the one with
    the coordinates (py // d, px // d), the cell the rest of the code
    calls column py // d, row px // d. *)
Theorem pos_to_node_int (W H : nat) (m : Map) (d px py : Z) :
  grid_ok W H (array m) ->
  drone_dim m = PyInt d -> d <> 0 ->
  0 <= px / d < Z.of_nat H -> 0 <= py / d < Z.of_nat W ->
  exists n, pos_to_node (int_pos px py) m = Ok n /\
            coords n = (py / d, px / d) /\
            cell_at m (py / d) (px / d) = Ok n.
Proof.
  intros Hg Hd Hnz Hx Hy.
  destruct (grid_ok_cell W H m (py / d) (px / d) Hg Hy Hx)
    as (row & n & Hrow & _ & Hn & Hc).
  exists n. unfold pos_to_node, cell_at, int_pos, num_floordiv. cbn [fst snd].
  rewrite Hd. rewrite (proj2 (num_is_zero_int d) Hnz). cbn.
  rewrite Hrow. cbn. rewrite Hn. auto.
Qed.

Lemma pos_to_node_int_witness :
  exists n, pos_to_node (int_pos 4 3) (unit_grid 5 6) = Ok n /\
            coords n = (3 / 1, 4 / 1) /\
            cell_at (unit_grid 5 6) (3 / 1) (4 / 1) = Ok n.
Proof.
  apply (pos_to_node_int 5 6 (unit_grid 5 6) 1 4 3);
    [apply (fresh_array_grid_ok 5 6) | reflexivity | discriminate
    | vm_compute; split; [discriminate | reflexivity]
    | vm_compute; split; [discriminate | reflexivity]].
Defined.

(** ** The search loop *)

(** X16.  A pass of the search loop never produces a path.  It returns None when
    the open list is empty and raises TypeError otherwise, so a search is
    never reported as found. *)
Theorem search_loop_outcomes (self : Astar) :
  (nodes_found self = [] /\ search_loop self = Ok None) \/
  (nodes_found self <> [] /\ search_loop self = Error TypeError).
Proof.
  destruct (nodes_found self) as [|a l] eqn:Hf.
  - left. split; [reflexivity|]. apply search_loop_None_iff. exact Hf.
  - right. split; [discriminate|]. apply search_loop_nonempty. congruence.
Qed.

(** X17.  The path reconstruction of lines 71-81 never returns: for a target
    without parent it raises AttributeError on [None.parent], for any other
    TypeError on [node.parent in None]. *)
Theorem reconstruct_never_returns (n : Node) :
  reconstruct n = Error (match parent n with
                         | None => AttributeError
                         | Some _ => TypeError
                         end).
Proof.
  unfold reconstruct. destruct (parent n) as [p|]; [|reflexivity].
  destruct p; reflexivity.
Qed.

(** ** The scan of the visualisation *)







Example obstacle_points_of_marked_map :
  (o ← Obstacle_init (rectangle 1 0 2 1);
   m ← unit_map 3 3 [o]; obstacle_points m)
  = Ok ([1; 2; 1; 2], [0; 0; 1; 1]).
Proof. reflexivity. Qed.
